(** * SOAR heuristic advisor: rule catalog, ignore filter, black list,
      scoring and report formatting ([advisor/rules.go]).

    A shallow embedding of [IsIgnoreRule], [InBlackList], [FormatSuggest],
    [formatJSON] and the [HeuristicRules] catalog, followed by the properties
    the specification states about them.

    Conventions.
    - Go's [map[string]Rule] is a [gmap string Rule].  A [for k := range m]
      loop visits the keys of [m] in an order the runtime chooses; the order
      is a parameter of the model ([range_order], which gives for a map the
      order in which a loop walks it), every property is proved for all
      orders, and an entry deleted before it is reached is not visited.
    - Go's [int] is the 64-bit two's complement integer; [wrap64] writes the
      wrap-around out.
    - Go strings are byte strings, [string] here. *)

From Stdlib Require Import ZArith Lia List Ascii String.
From stdpp Require Import gmap strings list fin_maps sorting.

Local Open Scope Z_scope.

(** ** The pieces of Go's standard library the advisor calls *)

Module strings.

(** [strings.HasPrefix(s, prefix)]. *)
Fixpoint HasPrefix (s prefix : string) {struct prefix} : bool :=
  match prefix with
  | EmptyString => true
  | String a prefix' =>
      match s with
      | EmptyString => false
      | String b s' => Ascii.eqb a b && HasPrefix s' prefix'
      end
  end.

(** Membership of a byte in a cutset (the cutsets used are single ASCII
    characters, for which bytes and code points coincide). *)
Fixpoint in_cutset (c : ascii) (cutset : string) : bool :=
  match cutset with
  | EmptyString => false
  | String a rest => Ascii.eqb a c || in_cutset c rest
  end.

(** [strings.TrimLeft(s, cutset)]. *)
Fixpoint TrimLeft (s cutset : string) : string :=
  match s with
  | EmptyString => EmptyString
  | String a rest => if in_cutset a cutset then TrimLeft rest cutset else s
  end.

(** [strings.TrimRight(s, cutset)]. *)
Fixpoint TrimRight (s cutset : string) : string :=
  match s with
  | EmptyString => EmptyString
  | String a rest =>
      match TrimRight rest cutset with
      | EmptyString => if in_cutset a cutset then EmptyString else String a EmptyString
      | t => String a t
      end
  end.

(** [strings.Trim(s, cutset)]: both ends. *)
Definition Trim (s cutset : string) : string := TrimRight (TrimLeft s cutset) cutset.

(** [strings.Join(elems, sep)]. *)
Definition Join (elems : list string) (sep : string) : string := String.concat sep elems.

End strings.

Module strconv.

Definition maxUint64 : Z := 2 ^ 64 - 1.
Definition maxInt64 : Z := 2 ^ 63 - 1.
Definition minInt64 : Z := - 2 ^ 63.

Inductive NumError := ErrSyntax | ErrRange.

Definition digit (c : ascii) : option Z :=
  let n := Z.of_N (N_of_ascii c) in
  if (48 <=? n) && (n <=? 57) then Some (n - 48) else None.

(** The digit loop of [strconv.ParseUint(s, 10, 64)]: a syntax error at the
    first byte that is no digit, a range error (with the largest value) as
    soon as the accumulator overflows. *)
Fixpoint parseUintLoop (s : string) (n : Z) : Z * option NumError :=
  match s with
  | EmptyString => (n, None)
  | String c rest =>
      match digit c with
      | None => (0, Some ErrSyntax)
      | Some d =>
          if n >=? maxUint64 / 10 + 1 then (maxUint64, Some ErrRange)
          else
            let n1 := n * 10 + d in
            if n1 >? maxUint64 then (maxUint64, Some ErrRange)
            else parseUintLoop rest n1
      end
  end.

Definition ParseUint (s : string) : Z * option NumError :=
  match s with
  | EmptyString => (0, Some ErrSyntax)
  | _ => parseUintLoop s 0
  end.

(** [strconv.ParseInt(s, 10, 64)]. *)
Definition ParseInt (s : string) : Z * option NumError :=
  match s with
  | EmptyString => (0, Some ErrSyntax)
  | String c rest =>
      let neg := Ascii.eqb c "-" in
      let body := if Ascii.eqb c "+" || neg then rest else s in
      match ParseUint body with
      | (_, Some ErrSyntax) => (0, Some ErrSyntax)
      | (un, _) =>
          if negb neg && (un >=? 2 ^ 63) then (maxInt64, Some ErrRange)
          else if neg && (un >? 2 ^ 63) then (minInt64, Some ErrRange)
          else (if neg then - un else un, None)
      end
  end.

(** [strconv.Atoi(s)] on a 64-bit platform; its fast path for short inputs
    returns what [ParseInt] returns. *)
Definition Atoi (s : string) : Z * option NumError := ParseInt s.

End strconv.

Module fmt.

Definition nl : string := String (ascii_of_nat 10) EmptyString.

(** [fmt.Sprintln(a)] and [fmt.Sprintln(a, b)] on strings: operands separated
    by a space, a newline appended. *)
Definition Sprintln1 (a : string) : string := a +:+ nl.
Definition Sprintln (a b : string) : string := a +:+ " " +:+ b +:+ nl.

End fmt.

(** Go's [int]: the representative of [z] in the signed 64-bit range. *)
Definition wrap64 (z : Z) : Z := (z + 2 ^ 63) mod 2 ^ 64 - 2 ^ 63.

(** [sort.Strings]: ascending in the bytewise order of Go's [<] on strings. *)
Definition str_le (a b : string) : Prop := String.leb a b = true.

#[global] Instance str_le_dec a b : Decision (str_le a b).
Proof. unfold str_le. apply _. Defined.

Definition sort_Strings (l : list string) : list string := merge_sort str_le l.

(** ** Data model *)

(** [Rule]; the [Func] field (the rule's check function) plays no part in
    filtering, scoring or formatting and is left out. *)
Record Rule := mkRule {
  Item : string;
  Severity : string;
  Summary : string;
  Content : string;
  Case : string;
  Position : Z
}.

(** The zero value of [Rule], what [m[k]] yields for an absent key. *)
Definition zeroRule : Rule := mkRule "" "" "" "" "" 0.

Abbreviation FindingSet := (gmap string Rule).

(** [m[k]] in Go. *)
Definition index (m : FindingSet) (k : string) : Rule := default zeroRule (m !! k).

(** The fields of [common.Config] (and [common.BlackList]) read here. *)
Record Config := mkConfig {
  IgnoreRules : list string;
  ReportType : string;
  ExplainSQLReportType : string;
  BlackList : list string
}.

(** [JSONSuggest], the document of the json report. *)
Record JSONSuggest := mkJSONSuggest {
  js_ID : string;
  js_Fingerprint : string;
  js_Score : Z;
  js_Sample : string;
  js_Explain : list Rule;
  js_HeuristicRules : list Rule;
  js_IndexRules : list Rule;
  js_Tables : list string
}.

(** Functions of other packages that the formatter calls and whose code is
    not part of this file's source: [query.Fingerprint], [query.Id],
    [ast.Pretty], [ast.SchemaMetaInfo], [common.MarkdownEscape],
    [common.Score], [pretty.Sprint] and [json.MarshalIndent] ([None] when it
    returns an error). *)
Record Collaborators := mkCollaborators {
  Fingerprint : string -> string;
  Id : string -> string;
  Pretty : string -> string -> string;
  SchemaMetaInfo : string -> string -> list string;
  MarkdownEscape : string -> string;
  Score : Z -> string;
  pretty_Sprint : Rule -> string;
  MarshalIndent : JSONSuggest -> option string
}.

(** Go's [regexp] package as [InBlackList] uses it: [Compile] ([None] when
    [err != nil]) and the leftmost match of an expression in a text ([None]
    when the expression matches nowhere). *)
Record RegexpEngine := mkRegexpEngine {
  Regexp : Type;
  Compile : string -> option Regexp;
  Find : Regexp -> string -> option string
}.

(** [re.FindString(s)]: the text of the leftmost match, and the empty string
    when there is none. *)
Definition FindString (E : RegexpEngine) (re : Regexp E) (s : string) : string :=
  default EmptyString (Find E re s).

(** [re.MatchString(s)]: whether the expression matches somewhere in [s]. *)
Definition MatchString (E : RegexpEngine) (re : Regexp E) (s : string) : bool :=
  match Find E re s with Some _ => true | None => false end.

(** ** A regular expression engine for a fragment of Go's syntax

    Expressions made of literal bytes, [.] and a postfix [*], optionally
    behind the flag group [(?i)]; leftmost-first matching with a greedy star,
    as Go's [regexp] does it.  Every other metacharacter is outside the
    fragment and [Compile] gives [None] for it.  It instantiates
    [RegexpEngine] on the concrete black lists of the examples below. *)
Module MiniRE.

Inductive atom := Lit (c : ascii) | AnyChar.

Record piece := mkPiece { pc_atom : atom; pc_star : bool }.

Record regexp := mkRegexp { fold_case : bool; pieces : list piece }.

Definition is_meta (c : ascii) : bool := strings.in_cutset c "\()[]{}|+?^$".

Fixpoint parse_pieces (s : string) : option (list piece) :=
  match s with
  | EmptyString => Some []
  | String c rest =>
      if is_meta c || Ascii.eqb c "*" then None
      else
        let a := if Ascii.eqb c "." then AnyChar else Lit c in
        match rest with
        | String "*" (String "*" _) => None
        | String "*" rest' => cons (mkPiece a true) <$> parse_pieces rest'
        | _ => cons (mkPiece a false) <$> parse_pieces rest
        end
  end.

Definition compile (s : string) : option regexp :=
  if String.prefix "(?i)" s
  then mkRegexp true <$> parse_pieces (substring 4 (String.length s - 4) s)
  else mkRegexp false <$> parse_pieces s.

Definition lower (c : ascii) : ascii :=
  let n := N_of_ascii c in
  if ((65 <=? n) && (n <=? 90))%N then ascii_of_N (n + 32) else c.

Definition atom_matches (fc : bool) (a : atom) (c : ascii) : bool :=
  match a with
  | AnyChar => negb (Ascii.eqb c (ascii_of_nat 10))
  | Lit l => if fc then Ascii.eqb (lower l) (lower c) else Ascii.eqb l c
  end.

(** The texts left after [a*] at the start of [s], the longest match first. *)
Fixpoint star_rests (fc : bool) (a : atom) (s : string) : list string :=
  match s with
  | EmptyString => [EmptyString]
  | String c rest =>
      if atom_matches fc a c then star_rests fc a rest ++ [s] else [s]
  end.

(** The text left after the preferred match of [ps] at the start of [s]. *)
Fixpoint match_here (fc : bool) (ps : list piece) (s : string) : option string :=
  match ps with
  | [] => Some s
  | p :: ps' =>
      if pc_star p then
        (fix first (l : list string) : option string :=
           match l with
           | [] => None
           | t :: l' =>
               match match_here fc ps' t with
               | Some r => Some r
               | None => first l'
               end
           end) (star_rests fc (pc_atom p) s)
      else
        match s with
        | EmptyString => None
        | String c rest =>
            if atom_matches fc (pc_atom p) c then match_here fc ps' rest else None
        end
  end.

Fixpoint find (re : regexp) (s : string) : option string :=
  match match_here (fold_case re) (pieces re) s with
  | Some rest => Some (substring 0 (String.length s - String.length rest) s)
  | None =>
      match s with
      | EmptyString => None
      | String _ s' => find re s'
      end
  end.

Definition engine : RegexpEngine := mkRegexpEngine regexp compile find.

End MiniRE.

(** ** Concrete instances used by the examples *)

Module Samples.

(** Stand-ins for the collaborators: the fingerprint, the id, the pretty
    printer and the escaping leave their text as it is, no table is found, the
    score line is empty, [pretty.Sprint] shows the code and the JSON document
    is shown by its sample. *)
Definition ext : Collaborators :=
  mkCollaborators (fun s => s) (fun s => s) (fun s _ => s) (fun _ _ => [])
    (fun s => s) (fun _ => EmptyString) Item (fun j => Some (js_Sample j)).

Definition no_text : string -> string := fun _ => EmptyString.

(** A resolver on finding sets that hold no conflicting pair. *)
Definition no_conflict : FindingSet -> FindingSet := fun m => m.

(** Two of the orders in which a [range] loop may walk a map. *)
Definition order_fwd (m : FindingSet) : list string := (map_to_list m).*1.
Definition order_rev (m : FindingSet) : list string := rev (order_fwd m).

Definition cfg_plain : Config := mkConfig [] "" "" [].
Definition cfg_star_ALI : Config := mkConfig ["*ALI"] "" "" [].
Definition cfg_blacklist : Config := mkConfig [] "" "" ["x*"].
Definition cfg_ignore_OK : Config := mkConfig ["OK"] "" "" [].
Definition cfg_markdown : Config := mkConfig [] "markdown" "sample" [].

Definition ALI_001 : Rule :=
  mkRule "ALI.001" "L0" "It is recommended to declare an alias using the AS keyword display" "c1" "" 0.
Definition CLA_001 : Rule :=
  mkRule "CLA.001" "L4" "Outermost SELECT Unspecified WHERE condition" "c2" "" 0.
Definition OK_rule : Rule := mkRule "OK" "L0" "OK" "OK" "OK" 0.
(** An execution error and its placeholder (empty [Content]). *)
Definition ERR_001 : Rule := mkRule "ERR.001" "L8" "MySQL execute failed" "Unknown column" "" 0.
Definition ERR_002_placeholder : Rule := mkRule "ERR.002" "L8" "MySQL execute failed" "" "" 0.
(** A finding whose severity is no [L] and digit. *)
Definition ALI_001_unparsable : Rule :=
  mkRule "ALI.001" "high" "It is recommended to declare an alias using the AS keyword display" "c1" "" 0.
(** A finding whose severity reads as a negative number. *)
Definition ALI_001_negative : Rule :=
  mkRule "ALI.001" "L-1" "It is recommended to declare an alias using the AS keyword display" "c1" "" 0.
Definition PRO_000 : Rule := mkRule "PRO.000" "L0" "Profiling" "p" "" 0.
Definition TRA_000 : Rule := mkRule "TRA.000" "L0" "Trace" "t" "" 0.

Definition two_findings : FindingSet := {["ALI.001" := ALI_001; "CLA.001" := CLA_001]}.

Definition mixed_findings : FindingSet :=
  {["ALI.001" := ALI_001; "CLA.001" := CLA_001; "ERR.001" := ERR_001;
    "ERR.002" := ERR_002_placeholder; "PRO.000" := PRO_000; "TRA.000" := TRA_000]}.

End Samples.

(** ** The specification's own wording, for comparison with the code *)

Module Spec.

Definition is_upper (c : ascii) : bool :=
  let n := N_of_ascii c in ((65 <=? n) && (n <=? 90))%N.

Definition is_digit (c : ascii) : bool :=
  let n := N_of_ascii c in ((48 <=? n) && (n <=? 57))%N.

(** The regular expression [^(OK|[A-Z]{3}\.\d{3})$]. *)
Definition is_rule_code (k : string) : bool :=
  match k with
  | String "O" (String "K" EmptyString) => true
  | String a (String b (String c (String "." (String x (String y (String z EmptyString)))))) =>
      is_upper a && is_upper b && is_upper c && is_digit x && is_digit y && is_digit z
  | _ => false
  end.

(** The regular expression [^L[0-9]$]. *)
Definition is_severity (s : string) : bool :=
  match s with
  | String "L" (String d EmptyString) => is_digit d
  | _ => false
  end.

(** The digit of a severity [L0] ... [L9]. *)
Definition severity_digit (s : string) : Z :=
  match s with
  | String "L" (String d EmptyString) => Z.of_N (N_of_ascii d) - 48
  | _ => 0
  end.

(** The categories of the external collaborators. *)
Definition is_external (k : string) : bool :=
  existsb (strings.HasPrefix k) ["ERR"; "EXP"; "PRO"; "TRA"; "IDX"].

(** Follows the specification's words: a pattern, its trailing [*] stripped,
    is a non-empty prefix of the code and is not the literal OK. *)
Definition is_ignored (patterns : list string) (code : string) : bool :=
  existsb (fun pattern =>
             let p := strings.TrimRight pattern "*" in
             strings.HasPrefix code p && negb (String.eqb p "") && negb (String.eqb p "OK"))
          patterns.

(** Follows the specification's words: some entry equals the statement
    literally or matches it as a case-insensitive regular expression. *)
Definition in_blacklist (E : RegexpEngine) (blacklist : list string) (sql : string) : bool :=
  existsb (fun r =>
             String.eqb sql r ||
             match Compile E ("(?i)" +:+ r) with
             | Some rx => MatchString E rx sql
             | None => false
             end)
          blacklist.

(** The sum of a list of integers. *)
Definition Zsum (l : list Z) : Z := foldr Z.add 0 l.

(** The heuristic penalty of a finding set: five times the severity digit,
    summed over its findings. *)
Definition penalty (m : FindingSet) : Z :=
  Zsum ((fun kr : string * Rule => 5 * severity_digit (Severity kr.2)) <$> map_to_list m).

End Spec.

(** ** The advisor *)

Section Advisor.

(** The configuration snapshot, the collaborators, the regular expression
    engine, the catalog's long texts (several are built from the
    configuration), the conflict resolver [MergeConflictHeuristicRules] (a
    function of this package whose code is in another file) and the order
    in which the runtime walks a map. *)
Variable cfg : Config.
Variable ext : Collaborators.
Variable re : RegexpEngine.
Variables rule_content rule_case : string -> string.
Variable MergeConflictHeuristicRules : FindingSet -> FindingSet.
Variable range_order : FindingSet -> list string.

(** The map literal of [InitHeuristicRules], entry by entry: the key, then
    [Item], [Severity], [Summary], [Content], [Case] and [Position]. *)
Definition HeuristicRules_literal : list (string * Rule) := [
  ("OK", mkRule "OK" "L0" "OK" "OK" "OK" 0);
  ("ALI.001", mkRule "ALI.001" "L0"
     "It is recommended to declare an alias using the AS keyword display"
     (rule_content "ALI.001") (rule_case "ALI.001") 0);
  ("ALI.002", mkRule "ALI.002" "L8"
     "It is not recommended to set aliases for the column wildcard '*'"
     (rule_content "ALI.002") (rule_case "ALI.002") 0);
  ("ALI.003", mkRule "ALI.003" "L1"
     "Alias should not be the same as the name of a table or column"
     (rule_content "ALI.003") (rule_case "ALI.003") 0);
  ("ALT.001", mkRule "ALT.001" "L4"
     "Changing the default character set of a table does not change the character set of each field of the table"
     (rule_content "ALT.001") (rule_case "ALT.001") 0);
  ("ALT.002", mkRule "ALT.002" "L2"
     "Multiple ALTER requests for the same table are recommended to be combined into one"
     (rule_content "ALT.002") (rule_case "ALT.002") 0);
  ("ALT.003", mkRule "ALT.003" "L0"
     "Delete as a high-risk operation, please pay attention to check whether the business logic has any dependencies before operation"
     (rule_content "ALT.003") (rule_case "ALT.003") 0);
  ("ALT.004", mkRule "ALT.004" "L0"
     "Deleting primary keys and foreign keys is a high-risk operation, please check with DBA before operation."
     (rule_content "ALT.004") (rule_case "ALT.004") 0);
  ("ARG.001", mkRule "ARG.001" "L4"
     "It is not recommended to use the antecedent wildcard lookup"
     (rule_content "ARG.001") (rule_case "ARG.001") 0);
  ("ARG.002", mkRule "ARG.002" "L1"
     "LIKE queries without wildcards"
     (rule_content "ARG.002") (rule_case "ARG.002") 0);
  ("ARG.003", mkRule "ARG.003" "L4"
     "Parameter comparison contains implicit conversions and cannot use indexes"
     (rule_content "ARG.003") (rule_case "ARG.003") 0);
  ("ARG.004", mkRule "ARG.004" "L4"
     "IN (NULL)/NOT IN (NULL) Always not true"
     (rule_content "ARG.004") (rule_case "ARG.004") 0);
  ("ARG.005", mkRule "ARG.005" "L1"
     "IN should be used with caution, too many elements will lead to a full table scan"
     (rule_content "ARG.005") (rule_case "ARG.005") 0);
  ("ARG.006", mkRule "ARG.006" "L1"
     "NULL value determination of fields in WHERE clause should be avoided as much as possible"
     (rule_content "ARG.006") (rule_case "ARG.006") 0);
  ("ARG.007", mkRule "ARG.007" "L3"
     "Avoid using pattern matching"
     (rule_content "ARG.007") (rule_case "ARG.007") 0);
  ("ARG.008", mkRule "ARG.008" "L1"
     "OR Please use IN predicate as much as possible when querying index columns"
     (rule_content "ARG.008") (rule_case "ARG.008") 0);
  ("ARG.009", mkRule "ARG.009" "L1"
     "A string in quotation marks contains spaces at the beginning or end of the string"
     (rule_content "ARG.009") (rule_case "ARG.009") 0);
  ("ARG.010", mkRule "ARG.010" "L1"
     "Do not use hint, such as: sql_no_cache, force index, ignore key, straight join, etc."
     (rule_content "ARG.010") (rule_case "ARG.010") 0);
  ("ARG.011", mkRule "ARG.011" "L3"
     "Do not use negative queries, e.g. NOT IN/NOT LIKE"
     (rule_content "ARG.011") (rule_case "ARG.011") 0);
  ("ARG.012", mkRule "ARG.012" "L2"
     "Too much data for one INSERT/REPLACE"
     (rule_content "ARG.012") (rule_case "ARG.012") 0);
  ("ARG.013", mkRule "ARG.013" "L0"
     "DDL statements use Chinese full angle quotes"
     (rule_content "ARG.013") (rule_case "ARG.013") 0);
  ("ARG.014", mkRule "ARG.014" "L4"
     "The presence of a column name in the IN condition may cause the data to be matched in a wider range"
     (rule_content "ARG.014") (rule_case "ARG.014") 0);
  ("CLA.001", mkRule "CLA.001" "L4"
     "Outermost SELECT Unspecified WHERE condition"
     (rule_content "CLA.001") (rule_case "CLA.001") 0);
  ("CLA.002", mkRule "CLA.002" "L3"
     "ORDER BY RAND() is not recommended"
     (rule_content "CLA.002") (rule_case "CLA.002") 0);
  ("CLA.003", mkRule "CLA.003" "L2"
     "LIMIT queries with OFFSET are not recommended"
     (rule_content "CLA.003") (rule_case "CLA.003") 0);
  ("CLA.004", mkRule "CLA.004" "L2"
     "GROUP BY is not recommended for constants"
     (rule_content "CLA.004") (rule_case "CLA.004") 0);
  ("CLA.005", mkRule "CLA.005" "L2"
     "ORDER BY constant column doesn't make any sense"
     (rule_content "CLA.005") (rule_case "CLA.005") 0);
  ("CLA.006", mkRule "CLA.006" "L4"
     "GROUP BY or ORDER BY in different tables"
     (rule_content "CLA.006") (rule_case "CLA.006") 0);
  ("CLA.008", mkRule "CLA.008" "L2"
     "Please add an ORDER BY condition to the GROUP BY display"
     (rule_content "CLA.008") (rule_case "CLA.008") 0);
  ("CLA.009", mkRule "CLA.009" "L2"
     "The ORDER BY condition is an expression"
     (rule_content "CLA.009") (rule_case "CLA.009") 0);
  ("CLA.010", mkRule "CLA.010" "L2"
     "The conditions of GROUP BY are expressions"
     (rule_content "CLA.010") (rule_case "CLA.010") 0);
  ("CLA.011", mkRule "CLA.011" "L1"
     "Suggest adding comments to the table"
     (rule_content "CLA.011") (rule_case "CLA.011") 0);
  ("CLA.012", mkRule "CLA.012" "L2"
     "Decompose complex wrap-around queries into a few simple queries"
     (rule_content "CLA.012") (rule_case "CLA.012") 0);
  ("CLA.013", mkRule "CLA.013" "L3"
     "The HAVING clause is not recommended"
     (rule_content "CLA.013") (rule_case "CLA.013") 0);
  ("CLA.014", mkRule "CLA.014" "L2"
     "It is recommended to use TRUNCATE instead of DELETE when deleting a full table"
     (rule_content "CLA.014") (rule_case "CLA.014") 0);
  ("CLA.015", mkRule "CLA.015" "L4"
     "UPDATE does not specify WHERE condition"
     (rule_content "CLA.015") (rule_case "CLA.015") 0);
  ("CLA.016", mkRule "CLA.016" "L2"
     "Do not UPDATE the primary key"
     (rule_content "CLA.016") (rule_case "CLA.016") 0);
  ("COL.001", mkRule "COL.001" "L1"
     "SELECT * type queries are not recommended"
     (rule_content "COL.001") (rule_case "COL.001") 0);
  ("COL.002", mkRule "COL.002" "L2"
     "INSERT/REPLACE Unspecified column name"
     (rule_content "COL.002") (rule_case "COL.002") 0);
  ("COL.003", mkRule "COL.003" "L2"
     "It is recommended to change the self-incrementing ID to unsigned type"
     (rule_content "COL.003") (rule_case "COL.003") 0);
  ("COL.004", mkRule "COL.004" "L1"
     "Please add default values for columns"
     (rule_content "COL.004") (rule_case "COL.004") 0);
  ("COL.005", mkRule "COL.005" "L1"
     "Column not annotated"
     (rule_content "COL.005") (rule_case "COL.005") 0);
  ("COL.006", mkRule "COL.006" "L3"
     "It is recommended to add comments to each column in the table to clarify the meaning and role of each column in the table."
     (rule_content "COL.006") (rule_case "COL.006") 0);
  ("COL.007", mkRule "COL.007" "L3"
     "Table contains too many text/blob columns"
     (rule_content "COL.007") (rule_case "COL.007") 0);
  ("COL.008", mkRule "COL.008" "L1"
     "VARCHAR can be used instead of CHAR, VARBINARY instead of BINARY"
     (rule_content "COL.008") (rule_case "COL.008") 0);
  ("COL.009", mkRule "COL.009" "L2"
     "Exact data types are recommended"
     (rule_content "COL.009") (rule_case "COL.009") 0);
  ("COL.010", mkRule "COL.010" "L2"
     "ENUM/BIT/SET data types are not recommended"
     (rule_content "COL.010") (rule_case "COL.010") 0);
  ("COL.011", mkRule "COL.011" "L0"
     "NULL is used when a unique constraint is required, and NOT NULL is used only when the column cannot have a missing value"
     (rule_content "COL.011") (rule_case "COL.011") 0);
  ("COL.012", mkRule "COL.012" "L5"
     "Fields of type TEXT, BLOB and JSON are not recommended to be set to NOT NULL"
     (rule_content "COL.012") (rule_case "COL.012") 0);
  ("COL.013", mkRule "COL.013" "L4"
     "TIMESTAMP type default value check exception"
     (rule_content "COL.013") (rule_case "COL.013") 0);
  ("COL.014", mkRule "COL.014" "L5"
     "Specifies the character set for the column"
     (rule_content "COL.014") (rule_case "COL.014") 0);
  ("COL.015", mkRule "COL.015" "L4"
     "Fields of type TEXT, BLOB and JSON cannot be assigned non-NULL default values"
     (rule_content "COL.015") (rule_case "COL.015") 0);
  ("COL.016", mkRule "COL.016" "L1"
     "INT(10) or BIGINT(20) is recommended for integer definitions"
     (rule_content "COL.016") (rule_case "COL.016") 0);
  ("COL.017", mkRule "COL.017" "L2"
     "VARCHAR Definition length too long"
     (rule_content "COL.017") (rule_case "COL.017") 0);
  ("COL.018", mkRule "COL.018" "L9"
     "The table build statement uses a field type that is not recommended"
     (rule_content "COL.018") (rule_case "COL.018") 0);
  ("COL.019", mkRule "COL.019" "L1"
     "Time data types with precision below the second level are not recommended"
     (rule_content "COL.019") (rule_case "COL.019") 0);
  ("DIS.001", mkRule "DIS.001" "L1"
     "Eliminate unnecessary DISTINCT conditions"
     (rule_content "DIS.001") (rule_case "DIS.001") 0);
  ("DIS.002", mkRule "DIS.002" "L3"
     "COUNT(DISTINCT) may not be what you expect when you have multiple columns"
     (rule_content "DIS.002") (rule_case "DIS.002") 0);
  ("DIS.003", mkRule "DIS.003" "L3"
     "DISTINCT * does not make sense for tables with primary keys"
     (rule_content "DIS.003") (rule_case "DIS.003") 0);
  ("FUN.001", mkRule "FUN.001" "L2"
     "Avoid using functions or other operators in WHERE conditions"
     (rule_content "FUN.001") (rule_case "FUN.001") 0);
  ("FUN.002", mkRule "FUN.002" "L1"
     "COUNT(*) operation does not perform well when WHERE condition or non-MyISAM engine is specified"
     (rule_content "FUN.002") (rule_case "FUN.002") 0);
  ("FUN.003", mkRule "FUN.003" "L3"
     "String concatenation using merge into nullable columns"
     (rule_content "FUN.003") (rule_case "FUN.003") 0);
  ("FUN.004", mkRule "FUN.004" "L4"
     "The SYSDATE() function is not recommended"
     (rule_content "FUN.004") (rule_case "FUN.004") 0);
  ("FUN.005", mkRule "FUN.005" "L1"
     "It is not recommended to use COUNT(col) or COUNT(constant)"
     (rule_content "FUN.005") (rule_case "FUN.005") 0);
  ("FUN.006", mkRule "FUN.006" "L1"
     "Note the NPE issue when using SUM(COL)"
     (rule_content "FUN.006") (rule_case "FUN.006") 0);
  ("FUN.007", mkRule "FUN.007" "L1"
     "Triggers are not recommended"
     (rule_content "FUN.007") (rule_case "FUN.007") 0);
  ("FUN.008", mkRule "FUN.008" "L1"
     "Stored procedures are not recommended"
     (rule_content "FUN.008") (rule_case "FUN.008") 0);
  ("FUN.009", mkRule "FUN.009" "L1"
     "Custom functions are not recommended"
     (rule_content "FUN.009") (rule_case "FUN.009") 0);
  ("GRP.001", mkRule "GRP.001" "L2"
     "It is not recommended to use GROUP BY for equal-value query columns"
     (rule_content "GRP.001") (rule_case "GRP.001") 0);
  ("JOI.001", mkRule "JOI.001" "L2"
     "JOIN statements mix commas and ANSI patterns"
     (rule_content "JOI.001") (rule_case "JOI.001") 0);
  ("JOI.002", mkRule "JOI.002" "L4"
     "The same table is joined twice"
     (rule_content "JOI.002") (rule_case "JOI.002") 0);
  ("JOI.003", mkRule "JOI.003" "L4"
     "OUTER JOIN is not working"
     (rule_content "JOI.003") (rule_case "JOI.003") 0);
  ("JOI.004", mkRule "JOI.004" "L4"
     "It is not recommended to use exclusive JOIN"
     (rule_content "JOI.004") (rule_case "JOI.004") 0);
  ("JOI.005", mkRule "JOI.005" "L2"
     "Reduce the number of JOINs"
     (rule_content "JOI.005") (rule_case "JOI.005") 0);
  ("JOI.006", mkRule "JOI.006" "L4"
     "Rewriting nested queries as JOINs often results in more efficient execution and more effective optimization"
     (rule_content "JOI.006") (rule_case "JOI.006") 0);
  ("JOI.007", mkRule "JOI.007" "L4"
     "It is not recommended to use join table deletion or update"
     (rule_content "JOI.007") (rule_case "JOI.007") 0);
  ("JOI.008", mkRule "JOI.008" "L4"
     "Do not use JOIN queries across databases"
     (rule_content "JOI.008") (rule_case "JOI.008") 0);
  ("KEY.001", mkRule "KEY.001" "L2"
     "It is recommended to use self-incrementing column as primary key, if you use joint self-incrementing primary key, please use self-incrementing key as the first column"
     (rule_content "KEY.001") (rule_case "KEY.001") 0);
  ("KEY.002", mkRule "KEY.002" "L4"
     "No primary key or unique key, no online change of table structure"
     (rule_content "KEY.002") (rule_case "KEY.002") 0);
  ("KEY.003", mkRule "KEY.003" "L4"
     "Avoid recursive relationships such as foreign keys"
     (rule_content "KEY.003") (rule_case "KEY.003") 0);
  ("KEY.004", mkRule "KEY.004" "L0"
     "Reminder: Please align the index property order with the query"
     (rule_content "KEY.004") (rule_case "KEY.004") 0);
  ("KEY.005", mkRule "KEY.005" "L2"
     "Too many indexes on tables"
     (rule_content "KEY.005") (rule_case "KEY.005") 0);
  ("KEY.006", mkRule "KEY.006" "L4"
     "Too many columns in the primary key"
     (rule_content "KEY.006") (rule_case "KEY.006") 0);
  ("KEY.007", mkRule "KEY.007" "L4"
     "No primary key is specified or the primary key is not int or bigint"
     (rule_content "KEY.007") (rule_case "KEY.007") 0);
  ("KEY.008", mkRule "KEY.008" "L4"
     "ORDER BY multiple columns with different sort directions may not work with indexes"
     (rule_content "KEY.008") (rule_case "KEY.008") 0);
  ("KEY.009", mkRule "KEY.009" "L0"
     "Please take care to check data uniqueness before adding unique indexes"
     (rule_content "KEY.009") (rule_case "KEY.009") 0);
  ("KEY.010", mkRule "KEY.010" "L0"
     "Full text index is not a silver bullet"
     (rule_content "KEY.010") (rule_case "KEY.010") 0);
  ("KWR.001", mkRule "KWR.001" "L2"
     "SQL_CALC_FOUND_ROWS Inefficient"
     (rule_content "KWR.001") (rule_case "KWR.001") 0);
  ("KWR.002", mkRule "KWR.002" "L2"
     "It is not recommended to use MySQL keywords for column names or table names"
     (rule_content "KWR.002") (rule_case "KWR.002") 0);
  ("KWR.003", mkRule "KWR.003" "L1"
     "It is not recommended to use plural as column or table names"
     (rule_content "KWR.003") (rule_case "KWR.003") 0);
  ("KWR.004", mkRule "KWR.004" "L1"
     "Naming with multi-byte encoded characters (Chinese) is not recommended"
     (rule_content "KWR.004") (rule_case "KWR.004") 0);
  ("KWR.005", mkRule "KWR.005" "L1"
     "SQL contains unicode special characters"
     (rule_content "KWR.005") (rule_case "KWR.005") 0);
  ("LCK.001", mkRule "LCK.001" "L3"
     "INSERT INTO xx SELECT locking granularity is large, please be careful"
     (rule_content "LCK.001") (rule_case "LCK.001") 0);
  ("LCK.002", mkRule "LCK.002" "L3"
     "Please use INSERT ON DUPLICATE KEY UPDATE with caution."
     (rule_content "LCK.002") (rule_case "LCK.002") 0);
  ("LIT.001", mkRule "LIT.001" "L2"
     "Storing IP addresses with character types"
     (rule_content "LIT.001") (rule_case "LIT.001") 0);
  ("LIT.002", mkRule "LIT.002" "L4"
     "Date/time not enclosed in quotation marks"
     (rule_content "LIT.002") (rule_case "LIT.002") 0);
  ("LIT.003", mkRule "LIT.003" "L3"
     "A collection of related data stored in a column"
     (rule_content "LIT.003") (rule_case "LIT.003") 0);
  ("LIT.004", mkRule "LIT.004" "L1"
     "Please use a semicolon or a set DELIMITER ending"
     (rule_content "LIT.004") (rule_case "LIT.004") 0);
  ("RES.001", mkRule "RES.001" "L4"
     "Non-deterministic GROUP BY"
     (rule_content "RES.001") (rule_case "RES.001") 0);
  ("RES.002", mkRule "RES.002" "L4"
     "LIMIT queries that do not use ORDER BY"
     (rule_content "RES.002") (rule_case "RES.002") 0);
  ("RES.003", mkRule "RES.003" "L4"
     "The UPDATE/DELETE operation uses the LIMIT condition"
     (rule_content "RES.003") (rule_case "RES.003") 0);
  ("RES.004", mkRule "RES.004" "L4"
     "The UPDATE/DELETE operation specifies the ORDER BY condition"
     (rule_content "RES.004") (rule_case "RES.004") 0);
  ("RES.005", mkRule "RES.005" "L4"
     "The UPDATE statement may have a logical error, resulting in data corruption"
     (rule_content "RES.005") (rule_case "RES.005") 0);
  ("RES.006", mkRule "RES.006" "L4"
     "Never really compare conditions"
     (rule_content "RES.006") (rule_case "RES.006") 0);
  ("RES.007", mkRule "RES.007" "L4"
     "Always compare conditions for true"
     (rule_content "RES.007") (rule_case "RES.007") 0);
  ("RES.008", mkRule "RES.008" "L2"
     "It is not recommended to use LOAD DATA/SELECT ... INTO OUTFILE"
     (rule_content "RES.008") (rule_case "RES.008") 0);
  ("RES.009", mkRule "RES.009" "L2"
     "Continuous judgment is not recommended"
     (rule_content "RES.009") (rule_case "RES.009") 0);
  ("RES.010", mkRule "RES.010" "L2"
     "The fields defined as ON UPDATE CURRENT_TIMESTAMP in the table build statement are not recommended to contain business logic"
     (rule_content "RES.010") (rule_case "RES.010") 0);
  ("RES.011", mkRule "RES.011" "L2"
     "The table for the update request operation contains the ON UPDATE CURRENT_TIMESTAMP field"
     (rule_content "RES.011") (rule_case "RES.011") 0);
  ("SEC.001", mkRule "SEC.001" "L0"
     "Please use TRUNCATE operation with caution"
     (rule_content "SEC.001") (rule_case "SEC.001") 0);
  ("SEC.002", mkRule "SEC.002" "L0"
     "Do not use plaintext to store passwords"
     (rule_content "SEC.002") (rule_case "SEC.002") 0);
  ("SEC.003", mkRule "SEC.003" "L0"
     "Take care of backup when using DELETE/DROP/TRUNCATE, etc."
     (rule_content "SEC.003") (rule_case "SEC.003") 0);
  ("SEC.004", mkRule "SEC.004" "L0"
     "Discover common SQL injection functions"
     (rule_content "SEC.004") (rule_case "SEC.004") 0);
  ("STA.001", mkRule "STA.001" "L0"
     "The '!=' operator is a non-standard"
     (rule_content "STA.001") (rule_case "STA.001") 0);
  ("STA.002", mkRule "STA.002" "L1"
     "No spaces are recommended after the library or table names"
     (rule_content "STA.002") (rule_case "STA.002") 0);
  ("STA.003", mkRule "STA.003" "L1"
     "Claim caused by the name is not standardized"
     (rule_content "STA.003") (rule_case "STA.003") 0);
  ("STA.004", mkRule "STA.004" "L1"
     "Please do not use letters, numbers and underscores in your name"
     (rule_content "STA.004") (rule_case "STA.004") 0);
  ("SUB.001", mkRule "SUB.001" "L4"
     "MySQL's Poor Optimization of Subqueries"
     (rule_content "SUB.001") (rule_case "SUB.001") 0);
  ("SUB.002", mkRule "SUB.002" "L2"
     "If you don't care about duplication, it is recommended to use UNION ALL instead of UNION"
     (rule_content "SUB.002") (rule_case "SUB.002") 0);
  ("SUB.003", mkRule "SUB.003" "L3"
     "Consider using EXISTS instead of DISTINCT subqueries"
     (rule_content "SUB.003") (rule_case "SUB.003") 0);
  ("SUB.004", mkRule "SUB.004" "L3"
     "The nested join depth in the execution plan is too deep"
     (rule_content "SUB.004") (rule_case "SUB.004") 0);
  ("SUB.005", mkRule "SUB.005" "L8"
     "Subqueries do not support LIMIT"
     (rule_content "SUB.005") (rule_case "SUB.005") 0);
  ("SUB.006", mkRule "SUB.006" "L2"
     "It is not recommended to use functions in subqueries"
     (rule_content "SUB.006") (rule_case "SUB.006") 0);
  ("SUB.007", mkRule "SUB.007" "L2"
     "UNION union queries with LIMIT output limits on the outer level are recommended to have LIMIT output limits added to their inner level queries as well"
     (rule_content "SUB.007") (rule_case "SUB.007") 0);
  ("TBL.001", mkRule "TBL.001" "L4"
     "Partitioned tables are not recommended"
     (rule_content "TBL.001") (rule_case "TBL.001") 0);
  ("TBL.002", mkRule "TBL.002" "L4"
     "Please select the appropriate storage engine for the table"
     (rule_content "TBL.002") (rule_case "TBL.002") 0);
  ("TBL.003", mkRule "TBL.003" "L8"
     "Tables named after DUAL have special meanings in the database"
     (rule_content "TBL.003") (rule_case "TBL.003") 0);
  ("TBL.004", mkRule "TBL.004" "L2"
     "The initial AUTO INCREMENT value of the table is not 0"
     (rule_content "TBL.004") (rule_case "TBL.004") 0);
  ("TBL.005", mkRule "TBL.005" "L4"
     "Please use the recommended character set"
     (rule_content "TBL.005") (rule_case "TBL.005") 0);
  ("TBL.006", mkRule "TBL.006" "L1"
     "View is not recommended"
     (rule_content "TBL.006") (rule_case "TBL.006") 0);
  ("TBL.007", mkRule "TBL.007" "L1"
     "Temporary tables are not recommended"
     (rule_content "TBL.007") (rule_case "TBL.007") 0);
  ("TBL.008", mkRule "TBL.008" "L4"
     "Please use the recommended COLLATE"
     (rule_content "TBL.008") (rule_case "TBL.008") 0)
].

(** [HeuristicRules] after [InitHeuristicRules]. *)
Definition HeuristicRules : FindingSet := list_to_map HeuristicRules_literal.

(** [IsIgnoreRule]: the loop over [common.Config.IgnoreRules]. *)
Fixpoint IsIgnoreRule_loop (irs : list string) (item : string) : bool :=
  match irs with
  | [] => false
  | ir :: rest =>
      let ir := strings.Trim ir "*" in
      if strings.HasPrefix item ir && negb (String.eqb ir "OK") && negb (String.eqb ir "")
      then true
      else IsIgnoreRule_loop rest item
  end.

Definition IsIgnoreRule (item : string) : bool := IsIgnoreRule_loop (IgnoreRules cfg) item.

(** [InBlackList]: the loop over [common.BlackList]. *)
Fixpoint InBlackList_loop (bl : list string) (sql : string) : bool :=
  match bl with
  | [] => false
  | r :: rest =>
      if String.eqb sql r then true
      else
        match Compile re ("(?i)" +:+ r) with
        | Some rx =>
            if negb (String.eqb (FindString re rx sql) "") then true
            else InBlackList_loop rest sql
        | None => InBlackList_loop rest sql
        end
  end.

Definition InBlackList (sql : string) : bool := InBlackList_loop (BlackList cfg) sql.

(** [for k, v := range m { body }] with the loop's state [s]; [cur s] is the
    map as the loop has left it so far. *)
Definition range {S : Type} (cur : S -> FindingSet)
    (body : string -> Rule -> S -> S) (s : S) : S :=
  foldl (fun s k => match cur s !! k with Some r => body k r s | None => s end)
        s (range_order (cur s)).

(** [for item := range suggest { if P(item) { sorted = append(sorted, item) } }]. *)
Definition collect (suggest : FindingSet) (P : string -> bool) : list string :=
  range (fun _ => suggest)
        (fun item _ sorted => if P item then sorted ++ [item] else sorted) [].

(** The merge of the variadic [suggests]. *)
Definition merge_suggests (suggests : list FindingSet) : FindingSet :=
  foldl (fun suggest s =>
           range (fun _ => s) (fun item rule suggest => <[item := rule]> suggest) suggest)
        ∅ suggests.

Definition ignoreOK : bool := existsb (String.eqb "OK") (IgnoreRules cfg).

(** The default, the OK step and the ignore loop of [FormatSuggest]. *)
Definition ensure_OK (suggest : FindingSet) : FindingSet :=
  if (size suggest <? 1)%nat then {["OK" := index HeuristicRules "OK"]} else suggest.

Definition drop_OK (suggest : FindingSet) : FindingSet :=
  if ignoreOK || (1 <? size suggest)%nat then delete "OK" suggest else suggest.

Definition drop_ignored (suggest : FindingSet) : FindingSet :=
  range id (fun k _ suggest => if IsIgnoreRule k then delete k suggest else suggest) suggest.

Definition filter_suggest (suggest : FindingSet) : FindingSet :=
  drop_ignored (drop_OK (ensure_OK suggest)).

(** *** formatJSON *)

Definition is_EXP (item : string) : bool := strings.HasPrefix item "EXP".
Definition is_IDX (item : string) : bool := strings.HasPrefix item "IDX".
Definition is_PRO (item : string) : bool := strings.HasPrefix item "PRO".
Definition is_TRA (item : string) : bool := strings.HasPrefix item "TRA".
Definition is_ERR (item : string) : bool := strings.HasPrefix item "ERR".

(** One round of the score loop of [formatJSON]; [l] is used whether or not
    [Atoi] reported an error. *)
Definition jsonScoreStep (suggest : FindingSet) (item : string) (score : Z) : Z :=
  let l := (strconv.Atoi (strings.TrimLeft (Severity (index suggest item)) "L")).1 in
  let score := wrap64 (score - wrap64 (l * 5)) in
  if is_ERR item && negb (String.eqb (Content (index suggest item)) "") then 0 else score.

Definition jsonScore (suggest : FindingSet) : Z :=
  let score := range (fun _ => suggest) (fun item _ score => jsonScoreStep suggest item score) 100 in
  if score <? 0 then 0 else score.

Definition jsonHeuristic (suggest : FindingSet) (item : string) : bool :=
  negb (is_EXP item) && negb (is_IDX item) &&
  negb (is_ERR item && String.eqb (Content (index suggest item)) "").

Definition formatJSON_sug (sql db : string) (suggest : FindingSet) : JSONSuggest :=
  let fingerprint := Fingerprint ext sql in
  let id := Id ext fingerprint in
  {| js_ID := id;
     js_Fingerprint := fingerprint;
     js_Score := jsonScore suggest;
     js_Sample := sql;
     js_Explain := index suggest <$> sort_Strings (collect suggest is_EXP);
     js_HeuristicRules := index suggest <$> sort_Strings (collect suggest (jsonHeuristic suggest));
     js_IndexRules := index suggest <$> sort_Strings (collect suggest is_IDX);
     js_Tables := SchemaMetaInfo ext sql db |}.

Definition formatJSON (sql db : string) (suggest : FindingSet) : string :=
  default EmptyString (MarshalIndent ext (formatJSON_sug sql db suggest)).

(** *** FormatSuggest *)

(** The local variables [suggest], [buf] and [score] of [FormatSuggest]. *)
Record Locals := mkLocals { suggest : FindingSet; buf : list string; score : Z }.

(** [score = score - minus*5], or [score = 0] when [Atoi] fails, of the
    markdown reports. *)
Definition mdScore (severity : string) (score : Z) : Z :=
  match strconv.Atoi (strings.Trim severity "L") with
  | (minus, None) => wrap64 (score - wrap64 (minus * 5))
  | (_, Some _) => 0
  end.

(** The six lines of a finding in the text report. *)
Definition text_block (sql id item : string) (rule : Rule) : list string :=
  [fmt.Sprintln "Query: " sql;
   fmt.Sprintln "ID: " id;
   fmt.Sprintln "Item: " item;
   fmt.Sprintln "Severity: " (Severity rule);
   fmt.Sprintln "Summary: " (Summary rule);
   fmt.Sprintln "Content: " (Content rule)].

Definition format_text (sql id : string) (suggest : FindingSet) : list string :=
  range (fun _ => suggest) (fun item rule buf => buf ++ text_block sql id item rule) [].

(** The line of a finding in the lint report: [fmt.Sprintf("%s %s", ...)]. *)
Definition lint_line (item : string) (rule : Rule) : string := item +:+ " " +:+ Summary rule.

Definition format_lint (suggest : FindingSet) : list string :=
  range (fun _ => suggest)
    (fun item rule buf =>
       if negb (String.eqb item "OK") && negb (is_EXP item)
       then buf ++ [lint_line item rule]
       else buf) [].

Definition format_default (sql : string) (suggest : FindingSet) : list string :=
  range (fun _ => suggest)
    (fun _ rule buf => buf ++ [pretty_Sprint ext rule]) [fmt.Sprintln "Query: " sql].

(** The header of the markdown reports. *)
Definition md_header (sql id fingerprint format : string) (st : Locals) : Locals :=
  if negb (String.eqb sql "") && (0 <? size (suggest st))%nat then
    let shown :=
      if String.eqb (ExplainSQLReportType cfg) "fingerprint" then fingerprint
      else if String.eqb (ExplainSQLReportType cfg) "sample" then sql
      else Pretty ext sql format in
    mkLocals (suggest st)
      (buf st ++ ["# Query: " +:+ id +:+ fmt.nl;
                  "```sql" +:+ fmt.nl +:+ shown +:+ fmt.nl +:+ "```" +:+ fmt.nl])
      (score st)
  else st.

(** The first loop of the MySQL block: placeholders (ERR with empty
    [Content]) are deleted, the other ERR codes collected. *)
Definition md_mysql_scan (suggest : FindingSet) : FindingSet * list string :=
  range fst
    (fun item _ p =>
       if is_ERR item then
         if String.eqb (Content (index p.1 item)) "" then (delete item p.1, p.2)
         else (p.1, p.2 ++ [item])
       else p)
    (suggest, []).

Definition md_mysql (st : Locals) : Locals :=
  let scanned := md_mysql_scan (suggest st) in
  let sortedMySQLSuggest := sort_Strings scanned.2 in
  let st :=
    mkLocals scanned.1
      (if (0 <? length sortedMySQLSuggest)%nat
       then buf st ++ ["## MySQL execute failed" +:+ fmt.nl] else buf st)
      (score st) in
  foldl (fun st item =>
           mkLocals (delete item (suggest st))
             (buf st ++ [fmt.Sprintln1 (Content (index (suggest st) item))])
             0)
        st sortedMySQLSuggest.

Definition md_explain (st : Locals) : Locals :=
  let e := index (suggest st) "EXP.000" in
  let st :=
    if negb (String.eqb (Item e) "") then
      mkLocals (delete "EXP.000" (suggest st))
        (buf st ++ [fmt.Sprintln "## " (Summary e); fmt.Sprintln1 (Content e); Case e +:+ fmt.nl])
        (score st)
    else st in
  let sortedExplainSuggest := sort_Strings (collect (suggest st) is_EXP) in
  foldl (fun st item =>
           let r := index (suggest st) item in
           mkLocals (suggest st)
             (buf st ++ [fmt.Sprintln "### " (Summary r); fmt.Sprintln1 (Content r); Case r +:+ fmt.nl])
             (score st))
        st sortedExplainSuggest.

(** The Profiling and the Trace block: the codes with the prefix are
    rendered under [title] and deleted. *)
Definition md_dump (P : string -> bool) (title : string) (st : Locals) : Locals :=
  let sorted := sort_Strings (collect (suggest st) P) in
  let st :=
    mkLocals (suggest st)
      (if (0 <? length sorted)%nat then buf st ++ [title] else buf st)
      (score st) in
  foldl (fun st item =>
           mkLocals (delete item (suggest st))
             (buf st ++ [fmt.Sprintln1 (Content (index (suggest st) item))])
             (score st))
        st sorted.

Definition md_profiling : Locals -> Locals := md_dump is_PRO ("## Profiling信息" +:+ fmt.nl).
Definition md_trace : Locals -> Locals := md_dump is_TRA ("## Trace信息" +:+ fmt.nl).

Definition md_index (format : string) (st : Locals) : Locals :=
  let sortedIdxSuggest := sort_Strings (collect (suggest st) is_IDX) in
  foldl (fun st item =>
           let r := index (suggest st) item in
           mkLocals (suggest st)
             (buf st ++
                [fmt.Sprintln "## " (MarkdownEscape ext (Summary r));
                 fmt.Sprintln "* **Item:** " item;
                 fmt.Sprintln "* **Severity:** " (Severity r);
                 fmt.Sprintln "* **Content:** " (MarkdownEscape ext (Content r))] ++
                (if String.eqb format "duplicate-key-checker"
                 then ["* **原建表语句:** " +:+ fmt.nl +:+ "```sql" +:+ fmt.nl +:+ Case r +:+ fmt.nl
                         +:+ "```" +:+ fmt.nl;
                       fmt.nl +:+ fmt.nl]
                 else ["* **Case:** " +:+ MarkdownEscape ext (Case r) +:+ fmt.nl +:+ fmt.nl]))
             (mdScore (Severity r) (score st)))
        st sortedIdxSuggest.

Definition md_heuristic (st : Locals) : Locals :=
  let sortedHeuristicSuggest :=
    sort_Strings (collect (suggest st)
                    (fun item => negb (is_EXP item) && negb (is_IDX item) && negb (is_PRO item))) in
  foldl (fun st item =>
           let r := index (suggest st) item in
           if String.eqb item "OK" then
             mkLocals (suggest st) (buf st ++ [fmt.Sprintln "##" (Summary r)]) (score st)
           else
             mkLocals (suggest st)
               (buf st ++
                  [fmt.Sprintln "##" (Summary r);
                   fmt.Sprintln "* **Item:** " item;
                   fmt.Sprintln "* **Severity:** " (Severity r);
                   fmt.Sprintln "* **Content:** " (MarkdownEscape ext (Content r))])
               (mdScore (Severity r) (score st)))
        st sortedHeuristicSuggest.

(** The blocks below the header: MySQL, Explain, Profiling, Trace, Index and
    Heuristic. *)
Definition md_body (format : string) (st : Locals) : Locals :=
  md_heuristic (md_index format (md_trace (md_profiling (md_explain (md_mysql st))))).

Definition format_markdown (sql id fingerprint format : string) (st : Locals) : Locals :=
  md_body format (md_header sql id fingerprint format st).

Definition is_markdown_family (format : string) : bool :=
  String.eqb format "markdown" || String.eqb format "html" ||
  String.eqb format "explain-digest" || String.eqb format "duplicate-key-checker".

(** [FormatSuggest] up to its last [switch]: the locals after the report
    has been written into [buf]. *)
Definition FormatSuggest_locals (sql currentDB format : string)
    (suggests : list FindingSet) : Locals :=
  let fingerprint := if String.eqb sql "" then EmptyString else Fingerprint ext sql in
  let id := if String.eqb sql "" then EmptyString else Id ext fingerprint in
  let suggest := filter_suggest (MergeConflictHeuristicRules (merge_suggests suggests)) in
  if String.eqb format "json" then
    mkLocals suggest [formatJSON sql currentDB suggest] 100
  else if String.eqb format "text" then
    mkLocals suggest (format_text sql id suggest) 100
  else if String.eqb format "lint" then
    mkLocals suggest (format_lint suggest) 100
  else if is_markdown_family format then
    format_markdown sql id fingerprint format (mkLocals suggest [] 100)
  else
    mkLocals suggest (format_default sql suggest) 100.

(** The scoring [switch] on [common.Config.ReportType] that builds [str]. *)
Definition render (st : Locals) : string :=
  if String.eqb (ReportType cfg) "markdown" || String.eqb (ReportType cfg) "html" then
    match buf st with
    | b0 :: ((_ :: _) as rest) =>
        b0 +:+ fmt.nl +:+ Score ext (score st) +:+ fmt.nl +:+ fmt.nl +:+ strings.Join rest fmt.nl
    | _ => EmptyString
    end
  else strings.Join (buf st) fmt.nl.

Definition FormatSuggest (sql currentDB format : string)
    (suggests : list FindingSet) : FindingSet * string :=
  let st := FormatSuggest_locals sql currentDB format suggests in
  (suggest st, render st).

(** The two kinds of ERR findings: a placeholder has an empty [Content], an
    execution failure a message. *)
Definition is_placeholder (item : string) (r : Rule) : bool :=
  is_ERR item && String.eqb (Content r) "".

Definition is_failure (item : string) (r : Rule) : bool :=
  is_ERR item && negb (String.eqb (Content r) "").

(** What a finding takes off the score: five times its severity digit. *)
Definition charge (m : FindingSet) (k : string) : Z :=
  5 * Spec.severity_digit (Severity (index m k)).

(** A finding set without its placeholders. *)
Definition without_placeholders (m : FindingSet) : FindingSet :=
  filter (fun kr : string * Rule => is_placeholder kr.1 kr.2 = false) m.

(** A finding set that holds OK only when OK is all it holds. *)
Definition OK_alone (m : FindingSet) : Prop := "OK" ∈ dom m -> dom m = {["OK"]}.

(** What the catalog's invariants ask of one entry of the literal. *)
Definition catalog_entry_ok (e : string * Rule) : bool :=
  Spec.is_rule_code e.1 && String.eqb (Item e.2) e.1 &&
  Spec.is_severity (Severity e.2) && negb (Spec.is_external e.1).

(** What the blocks of a markdown report leave in the finding set: neither
    ERR, PRO nor TRA codes, nor EXP.000 when its [Item] is set. *)
Definition md_kept (k : string) (r : Rule) : bool :=
  negb (is_ERR k) && negb (is_PRO k) && negb (is_TRA k) &&
  negb (String.eqb k "EXP.000" && negb (String.eqb (Item r) "")).

(** The findings whose severity a markdown report takes off the score: the
    Index and the Heuristic block, OK apart. *)
Definition md_scored (k : string) : bool :=
  negb (is_ERR k) && negb (is_EXP k) && negb (is_PRO k) && negb (is_TRA k) &&
  negb (String.eqb k "OK").

(** Whether a finding set holds an execution failure (an ERR finding with a
    message). *)
Definition has_failure (m : FindingSet) : bool :=
  existsb (fun kr : string * Rule => is_failure kr.1 kr.2) (map_to_list m).

(** [ks] lists, in ascending order and once each, the codes of [m] that
    satisfy [P]. *)
Definition sorted_codes (m : FindingSet) (P : string -> bool) (ks : list string) : Prop :=
  StronglySorted str_le ks /\ NoDup ks /\
  forall k, k ∈ ks <-> is_Some (m !! k) /\ P k = true.

(** ** Properties *)

(** *** Strings *)

Lemma HasPrefix_spec (s p : string) :
  strings.HasPrefix s p = true <-> exists rest, s = p +:+ rest.
Proof.
  revert s.
  induction p as [|a p IH]; intros s; simpl.
  - split; [intros _; by exists s | reflexivity].
  - destruct s as [|b s].
    + split; [done | intros [rest Hr]; discriminate].
    + change (String a p +:+ ?r) with (String a (p +:+ r)).
      destruct (Ascii.eqb a b) eqn:Hab; simpl.
      * apply Ascii.eqb_eq in Hab as ->.
        rewrite IH. split; intros [rest Hr]; exists rest; congruence.
      * apply Ascii.eqb_neq in Hab.
        split; [done | intros [rest Hr]; congruence].
Qed.

Lemma eqb_false_iff (a b : string) : String.eqb a b = false <-> a <> b.
Proof. rewrite <- String.eqb_neq. done. Qed.

(** *** The catalog *)

Lemma HeuristicRules_literal_ok : forallb catalog_entry_ok HeuristicRules_literal = true.
Proof. vm_compute. reflexivity. Qed.

Lemma HeuristicRules_literal_NoDup : NoDup HeuristicRules_literal.*1.
Proof. apply (bool_decide_unpack _). vm_compute. exact I. Qed.

Lemma HeuristicRules_lookup (k : string) (r : Rule) :
  HeuristicRules !! k = Some r <-> (k, r) ∈ HeuristicRules_literal.
Proof.
  unfold HeuristicRules. symmetry.
  apply elem_of_list_to_map, HeuristicRules_literal_NoDup.
Qed.

(** C9.  After [InitHeuristicRules] the keys of the catalog's literal are
    pairwise distinct (the map has one entry per line of the literal); every
    key matches [^(OK|[A-Z]{3}\.\d{3})$] and equals the [Item] of its rule;
    every [Severity] matches [^L[0-9]$]; the OK entry is present; and no key
    begins with ERR, EXP, PRO, TRA or IDX. *)
Theorem HeuristicRules_invariants :
  NoDup HeuristicRules_literal.*1 /\
  size HeuristicRules = length HeuristicRules_literal /\
  (forall k r, HeuristicRules !! k = Some r ->
     Spec.is_rule_code k = true /\ Item r = k /\
     Spec.is_severity (Severity r) = true /\
     strings.HasPrefix k "ERR" = false /\ strings.HasPrefix k "EXP" = false /\
     strings.HasPrefix k "PRO" = false /\ strings.HasPrefix k "TRA" = false /\
     strings.HasPrefix k "IDX" = false) /\
  is_Some (HeuristicRules !! "OK").
Proof.
  split; [apply HeuristicRules_literal_NoDup|].
  split.
  { unfold HeuristicRules.
    rewrite <- (length_fmap fst HeuristicRules_literal).
    rewrite <- (size_dom (D := gset string)), dom_list_to_map_L, size_list_to_set; [done|].
    apply HeuristicRules_literal_NoDup. }
  split.
  - intros k r Hk. apply HeuristicRules_lookup in Hk.
    pose proof HeuristicRules_literal_ok as Hall.
    rewrite forallb_forall in Hall.
    apply list_elem_of_In, Hall in Hk.
    unfold catalog_entry_ok, Spec.is_external in Hk; simpl in Hk.
    repeat (apply andb_prop in Hk as [Hk ?]).
    apply String.eqb_eq in H1.
    rewrite negb_true_iff in H. repeat (apply orb_false_elim in H as [? H]).
    done.
  - exists (mkRule "OK" "L0" "OK" "OK" "OK" 0).
    apply HeuristicRules_lookup. vm_compute. by left.
Qed.

(** *** The ignore filter *)

Lemma IsIgnoreRule_loop_iff (irs : list string) (item : string) :
  IsIgnoreRule_loop irs item = true <->
  exists ir, ir ∈ irs /\
    strings.Trim ir "*" <> "" /\ strings.Trim ir "*" <> "OK" /\
    exists rest, item = strings.Trim ir "*" +:+ rest.
Proof.
  induction irs as [|ir irs IH]; simpl.
  - split; [done | intros (ir & Hin & _); by apply elem_of_nil in Hin].
  - destruct (strings.HasPrefix item (strings.Trim ir "*")) eqn:Hp;
    destruct (String.eqb (strings.Trim ir "*") "OK") eqn:Hok;
    destruct (String.eqb (strings.Trim ir "*") "") eqn:He; simpl;
    try (rewrite IH; split;
         [ intros (ir' & Hin & H); exists ir'; split; [by right | done]
         | intros (ir' & Hin & Hne & Hnok & Hpre);
           apply elem_of_cons in Hin as [->|Hin]; [|by exists ir'];
           first [ apply String.eqb_eq in He; done
                 | apply String.eqb_eq in Hok; done
                 | apply HasPrefix_spec in Hpre; congruence ] ]).
    split; [intros _ | done].
    exists ir. split; [by left|].
    apply eqb_false_iff in Hok, He. apply HasPrefix_spec in Hp. done.
Qed.

(** C4 (amended).  [IsIgnoreRule code] is true exactly when some configured
    pattern, after all its leading and trailing [*] are stripped, is a
    non-empty prefix of the code and is not the literal OK. *)
Theorem IsIgnoreRule_iff (item : string) :
  IsIgnoreRule item = true <->
  exists ir, ir ∈ IgnoreRules cfg /\
    strings.Trim ir "*" <> "" /\ strings.Trim ir "*" <> "OK" /\
    exists rest, item = strings.Trim ir "*" +:+ rest.
Proof. apply IsIgnoreRule_loop_iff. Qed.

Lemma TrimLeft_no_leading (s cutset : string) :
  match s with
  | EmptyString => True
  | String a _ => strings.in_cutset a cutset = false
  end ->
  strings.TrimLeft s cutset = s.
Proof. destruct s as [|a s]; simpl; [done|]. by intros ->. Qed.

(** On patterns that do not begin with [*] the code and the specification's
    words agree. *)
Lemma IsIgnoreRule_without_leading_star (item : string) :
  (forall ir, ir ∈ IgnoreRules cfg -> strings.HasPrefix ir "*" = false) ->
  IsIgnoreRule item = Spec.is_ignored (IgnoreRules cfg) item.
Proof.
  unfold IsIgnoreRule. induction (IgnoreRules cfg) as [|ir irs IH]; intros Hall; [done|].
  cbn [IsIgnoreRule_loop Spec.is_ignored existsb].
  assert (Ht : strings.Trim ir "*" = strings.TrimRight ir "*").
  { unfold strings.Trim. rewrite TrimLeft_no_leading; [done|].
    specialize (Hall ir ltac:(by left)). destruct ir as [|a ir]; [done|].
    simpl in *. rewrite andb_true_r in Hall. by rewrite Hall. }
  rewrite Ht, IH by (intros ir' Hin; apply Hall; by right).
  unfold Spec.is_ignored.
  destruct (strings.HasPrefix item _), (String.eqb _ "OK"), (String.eqb _ ""); done.
Qed.

(** *** The black list *)

Lemma FindString_nonempty (rx : Regexp re) (sql : string) :
  FindString re rx sql <> "" <-> exists m, Find re rx sql = Some m /\ m <> "".
Proof.
  unfold FindString. destruct (Find re rx sql) as [m|]; simpl.
  - split; [intros H; by exists m | by intros (m' & [= <-] & H)].
  - split; [done | by intros (m & H & _)].
Qed.

Lemma InBlackList_loop_iff (bl : list string) (sql : string) :
  InBlackList_loop bl sql = true <->
  exists r, r ∈ bl /\
    (sql = r \/
     exists rx m, Compile re ("(?i)" +:+ r) = Some rx /\ Find re rx sql = Some m /\ m <> "").
Proof.
  induction bl as [|r bl IH]; simpl.
  - split; [done | intros (r & Hin & _); by apply elem_of_nil in Hin].
  - destruct (String.eqb sql r) eqn:Heq.
    { apply String.eqb_eq in Heq. split; [intros _ | done].
      exists r. split; [by left | by left]. }
    apply eqb_false_iff in Heq.
    destruct (Compile re ("(?i)" +:+ r)) as [rx|] eqn:Hc.
    + destruct (String.eqb (FindString re rx sql) "") eqn:Hf; simpl.
      * apply String.eqb_eq in Hf. rewrite IH. split.
        -- intros (r' & Hin & H). exists r'. split; [by right | done].
        -- intros (r' & Hin & H). apply elem_of_cons in Hin as [->|Hin]; [|by exists r'].
           destruct H as [?|(rx' & m & Hc' & Hm & Hne)]; [done|].
           rewrite Hc in Hc'. injection Hc' as <-.
           unfold FindString in Hf. rewrite Hm in Hf. done.
      * apply eqb_false_iff, FindString_nonempty in Hf as (m & Hm & Hne).
        split; [intros _ | done].
        exists r. split; [by left|]. right. by exists rx, m.
    + rewrite IH. split.
      * intros (r' & Hin & H). exists r'. split; [by right | done].
      * intros (r' & Hin & H). apply elem_of_cons in Hin as [->|Hin]; [|by exists r'].
        destruct H as [?|(rx' & m & Hc' & _)]; [done | congruence].
Qed.

(** C5 (amended).  [InBlackList sql] is true exactly when some entry equals
    [sql] literally or, compiled as a case-insensitive regular expression,
    has a non-empty leftmost match in [sql]. *)
Theorem InBlackList_iff (sql : string) :
  InBlackList sql = true <->
  exists r, r ∈ BlackList cfg /\
    (sql = r \/
     exists rx m, Compile re ("(?i)" +:+ r) = Some rx /\ Find re rx sql = Some m /\ m <> "").
Proof. apply InBlackList_loop_iff. Qed.

(** *** Range loops *)

Lemma foldl_delete_if_lookup (D : string -> Rule -> bool) (l : list string)
    (m : FindingSet) (k : string) :
  foldl (fun s a => match s !! a with
                    | Some r => if D a r then delete a s else s
                    | None => s
                    end) m l !! k
  = m !! k ≫= fun r => if bool_decide (k ∈ l) && D k r then None else Some r.
Proof.
  revert m. induction l as [|a l IH]; intros m; simpl.
  - by destruct (m !! k).
  - rewrite IH. clear IH.
    destruct (decide (k = a)) as [->|Hne].
    + rewrite (bool_decide_eq_true_2 (a ∈ a :: l)); [|by left].
      destruct (m !! a) as [r|] eqn:Hm; simpl.
      * destruct (D a r) eqn:HD.
        -- by rewrite lookup_delete_eq.
        -- rewrite Hm. simpl. rewrite HD, andb_false_r. done.
      * by rewrite Hm.
    + assert (Hk : (match m !! a with
                    | Some r => if D a r then delete a m else m
                    | None => m
                    end) !! k = m !! k).
      { destruct (m !! a) as [r|]; [|done].
        destruct (D a r); [|done]. by rewrite lookup_delete_ne. }
      rewrite Hk. destruct (m !! k) as [r|]; simpl; [|done].
      rewrite (bool_decide_ext (k ∈ a :: l) (k ∈ l)); [done|].
      rewrite elem_of_cons. split; [by intros [?|?] | by right].
Qed.

Lemma foldl_collect (m : FindingSet) (P : string -> bool) (l acc : list string) :
  foldl (fun sorted k => match m !! k with
                         | Some _ => if P k then sorted ++ [k] else sorted
                         | None => sorted
                         end) acc l
  = acc ++ filter (fun k => is_Some (m !! k) /\ P k = true) l.
Proof.
  revert acc. induction l as [|a l IH]; intros acc; simpl.
  - by rewrite app_nil_r.
  - rewrite IH. destruct (m !! a) as [r|] eqn:Hm.
    + destruct (P a) eqn:HP.
      * rewrite filter_cons_True; [|split; [by eexists | done]].
        by rewrite <- app_assoc.
      * rewrite filter_cons_False; [done|]. intros [_ ?]; congruence.
    + rewrite filter_cons_False; [done|]. intros [[? ?] _]; congruence.
Qed.

Lemma collect_eq (m : FindingSet) (P : string -> bool) :
  collect m P = filter (fun k => is_Some (m !! k) /\ P k = true) (range_order m).
Proof. unfold collect, range. apply (foldl_collect m P _ []). Qed.

Lemma elem_of_collect (m : FindingSet) (P : string -> bool) (k : string) :
  k ∈ collect m P <-> k ∈ range_order m /\ is_Some (m !! k) /\ P k = true.
Proof.
  rewrite collect_eq, list_elem_of_filter.
  split; [by intros [[? ?] ?] | by intros (? & ? & ?)].
Qed.

Lemma elem_of_sort_Strings (l : list string) (k : string) : k ∈ sort_Strings l <-> k ∈ l.
Proof. unfold sort_Strings. by rewrite merge_sort_Permutation. Qed.

(** The ignore loop only deletes, and deletes nothing but codes that
    [IsIgnoreRule] accepts. *)
Lemma drop_ignored_lookup (m : FindingSet) (k : string) :
  drop_ignored m !! k =
  m !! k ≫= fun r => if bool_decide (k ∈ range_order m) && IsIgnoreRule k then None else Some r.
Proof.
  unfold drop_ignored, range, id.
  apply (foldl_delete_if_lookup (fun a _ => IsIgnoreRule a)).
Qed.

Lemma drop_ignored_subseteq (m : FindingSet) : drop_ignored m ⊆ m.
Proof.
  apply map_subseteq_spec. intros k r. rewrite drop_ignored_lookup.
  destruct (m !! k) as [r'|]; simpl; [|done]. by case_match.
Qed.

Lemma drop_ignored_keeps (m : FindingSet) (k : string) (r : Rule) :
  m !! k = Some r -> IsIgnoreRule k = false -> drop_ignored m !! k = Some r.
Proof.
  intros Hm Hk. rewrite drop_ignored_lookup, Hm. simpl. by rewrite Hk, andb_false_r.
Qed.

(** *** The locals of the markdown blocks *)

Lemma suggest_foldl_keep (f : Locals -> string -> Locals) (l : list string) (st : Locals) :
  (forall st item, suggest (f st item) = suggest st) ->
  suggest (foldl f st l) = suggest st.
Proof.
  intros Hf. revert st. induction l as [|a l IH]; intros st; simpl; [done|].
  by rewrite IH, Hf.
Qed.

Lemma suggest_foldl_delete (f : Locals -> string -> Locals) (l : list string)
    (st : Locals) (k : string) :
  (forall st item, suggest (f st item) = delete item (suggest st)) ->
  suggest (foldl f st l) !! k = if bool_decide (k ∈ l) then None else suggest st !! k.
Proof.
  intros Hf. revert st. induction l as [|a l IH]; intros st; simpl; [done|].
  rewrite IH, Hf. destruct (decide (k = a)) as [->|Hne].
  - rewrite lookup_delete_eq, (bool_decide_eq_true_2 (a ∈ a :: l)); [|by left].
    by case_match.
  - rewrite lookup_delete_ne by done.
    apply (f_equal (fun b : bool => if b then None else suggest st !! k)).
    apply bool_decide_ext. rewrite elem_of_cons. split; [by right | by intros [?|?]].
Qed.

Lemma md_header_suggest (sql id fingerprint format : string) (st : Locals) :
  suggest (md_header sql id fingerprint format st) = suggest st.
Proof. unfold md_header. by case_match. Qed.

Lemma index_lookup (m : FindingSet) (k : string) (r : Rule) :
  m !! k = Some r -> index m k = r.
Proof. unfold index. by intros ->. Qed.

Lemma md_mysql_scan_fold (l : list string) (m : FindingSet) (acc : list string) :
  foldl (fun (s : FindingSet * list string) k =>
           match s.1 !! k with
           | Some _ =>
               if is_ERR k then
                 if String.eqb (Content (index s.1 k)) "" then (delete k s.1, s.2)
                 else (s.1, s.2 ++ [k])
               else s
           | None => s
           end) (m, acc) l
  = (foldl (fun s a => match s !! a with
                       | Some r => if is_placeholder a r then delete a s else s
                       | None => s
                       end) m l,
     acc ++ filter (fun k => is_Some (m !! k) /\ is_failure k (index m k) = true) l).
Proof.
  revert m acc. induction l as [|a l IH]; intros m acc; simpl.
  - by rewrite app_nil_r.
  - unfold is_placeholder, is_failure in *.
    destruct (m !! a) as [r|] eqn:Hm; simpl.
    + rewrite (index_lookup m a r Hm).
      destruct (is_ERR a) eqn:HE; simpl.
      * destruct (String.eqb (Content r) "") eqn:HC; simpl.
        -- rewrite IH. f_equal. f_equal.
           rewrite filter_cons_False.
           2:{ intros [_ H]. by rewrite (index_lookup m a r Hm), HC, andb_false_r in H. }
           apply list_filter_iff. intros k.
           destruct (decide (k = a)) as [->|Hne].
           ++ rewrite lookup_delete_eq, (index_lookup m a r Hm), HC, andb_false_r.
              split; [intros [[? ?] _]; done | intros [_ ?]; done].
           ++ unfold index. by rewrite lookup_delete_ne.
        -- rewrite IH. f_equal.
           rewrite filter_cons_True.
           2:{ rewrite (index_lookup m a r Hm), HC, HE, Hm. split; [by eexists | done]. }
           by rewrite <- app_assoc.
      * rewrite IH. f_equal. rewrite filter_cons_False; [done|].
        intros [_ H]. rewrite HE in H. done.
    + rewrite IH. f_equal. rewrite filter_cons_False; [done|].
      rewrite Hm. intros [[? ?] _]. done.
Qed.

Lemma md_mysql_scan_eq (m : FindingSet) :
  md_mysql_scan m =
  (foldl (fun s a => match s !! a with
                     | Some r => if is_placeholder a r then delete a s else s
                     | None => s
                     end) m (range_order m),
   filter (fun k => is_Some (m !! k) /\ is_failure k (index m k) = true) (range_order m)).
Proof. unfold md_mysql_scan, range. apply (md_mysql_scan_fold _ m []). Qed.

Lemma md_mysql_suggest (st : Locals) (k : string) :
  suggest (md_mysql st) !! k =
  suggest st !! k ≫= fun r =>
    if is_ERR k && bool_decide (k ∈ range_order (suggest st)) then None else Some r.
Proof.
  unfold md_mysql. rewrite suggest_foldl_delete by done. simpl.
  rewrite md_mysql_scan_eq. simpl.
  rewrite foldl_delete_if_lookup.
  destruct (suggest st !! k) as [r|] eqn:Hm; simpl.
  2:{ by case_match. }
  unfold is_placeholder.
  destruct (is_ERR k) eqn:HE; simpl.
  2:{ rewrite andb_false_r. rewrite bool_decide_eq_false_2; [done|].
      rewrite elem_of_sort_Strings, list_elem_of_filter.
      intros [[_ H] _]. unfold is_failure in H. by rewrite HE in H. }
  destruct (bool_decide (k ∈ range_order (suggest st))) eqn:Hin; simpl.
  - destruct (String.eqb (Content r) "") eqn:HC; simpl.
    + by case_match.
    + rewrite bool_decide_eq_true_2; [done|].
      rewrite elem_of_sort_Strings, list_elem_of_filter.
      apply bool_decide_eq_true in Hin. split; [|done].
      rewrite Hm, (index_lookup _ _ _ Hm). unfold is_failure. by rewrite HE, HC.
  - rewrite bool_decide_eq_false_2; [done|].
    rewrite elem_of_sort_Strings, list_elem_of_filter.
    apply bool_decide_eq_false in Hin. by intros [_ ?].
Qed.

Lemma md_explain_suggest (st : Locals) (k : string) :
  suggest (md_explain st) !! k =
  if bool_decide (k = "EXP.000") && negb (String.eqb (Item (index (suggest st) "EXP.000")) "")
  then None else suggest st !! k.
Proof.
  unfold md_explain. rewrite suggest_foldl_keep by done.
  destruct (negb (String.eqb (Item (index (suggest st) "EXP.000")) "")); simpl.
  - case_bool_decide as Hk; simpl.
    + subst k. apply lookup_delete_eq.
    + by apply lookup_delete_ne.
  - by rewrite andb_false_r.
Qed.

Lemma md_dump_suggest (P : string -> bool) (title : string) (st : Locals) (k : string) :
  suggest (md_dump P title st) !! k =
  suggest st !! k ≫= fun r =>
    if P k && bool_decide (k ∈ range_order (suggest st)) then None else Some r.
Proof.
  unfold md_dump. rewrite suggest_foldl_delete by done. simpl.
  destruct (suggest st !! k) as [r|] eqn:Hm; simpl.
  2:{ by case_match. }
  destruct (P k) eqn:HP; simpl.
  - apply (f_equal (fun b : bool => if b then None else Some r)).
    apply bool_decide_ext. rewrite elem_of_sort_Strings, elem_of_collect.
    split; [by intros (? & _ & _) | intros H; by rewrite Hm].
  - rewrite bool_decide_eq_false_2; [done|].
    rewrite elem_of_sort_Strings, elem_of_collect. intros (_ & _ & H). congruence.
Qed.

Lemma md_index_suggest (format : string) (st : Locals) :
  suggest (md_index format st) = suggest st.
Proof. unfold md_index. by apply suggest_foldl_keep. Qed.

Lemma md_heuristic_suggest (st : Locals) : suggest (md_heuristic st) = suggest st.
Proof.
  unfold md_heuristic. apply suggest_foldl_keep. intros st' item. by case_match.
Qed.

(** What a markdown report leaves of the finding set: never more than it
    was given. *)
Lemma format_markdown_subseteq (sql id fingerprint format : string) (st : Locals) :
  suggest (format_markdown sql id fingerprint format st) ⊆ suggest st.
Proof.
  unfold format_markdown, md_body, md_profiling, md_trace.
  rewrite md_heuristic_suggest, md_index_suggest.
  apply map_subseteq_spec. intros k r.
  rewrite !md_dump_suggest, md_explain_suggest, md_mysql_suggest, md_header_suggest.
  destruct (suggest st !! k) as [r'|]; simpl.
  - repeat (case_match; simpl; try done).
  - repeat (case_match; simpl; try done).
Qed.

(** *** The OK sentinel *)

Lemma ignoreOK_iff : ignoreOK = true <-> "OK" ∈ IgnoreRules cfg.
Proof.
  unfold ignoreOK. rewrite existsb_exists. split.
  - intros (r & Hin & Heq). apply String.eqb_eq in Heq as <-. by apply list_elem_of_In.
  - intros Hin. exists "OK". split; [by apply list_elem_of_In | done].
Qed.

Lemma dom_singleton_of_size (m : FindingSet) (k : string) :
  (size m <= 1)%nat -> k ∈ dom m -> dom m = {[k]}.
Proof.
  intros Hsize Hk. apply elem_of_dom in Hk as [r Hr].
  rewrite <- (insert_delete_id m k r Hr) in Hsize |- *.
  rewrite map_size_insert_None in Hsize by apply lookup_delete_eq.
  assert (Hempty : delete k m = ∅) by (apply map_size_empty_inv; lia).
  rewrite Hempty, insert_empty. apply dom_singleton_L.
Qed.

Lemma drop_OK_alone (m : FindingSet) : OK_alone (drop_OK m).
Proof.
  unfold OK_alone, drop_OK.
  destruct (ignoreOK || (1 <? size m)%nat) eqn:Hc.
  - rewrite dom_delete_L. intros [_ H]%elem_of_difference.
    exfalso. apply H. by apply elem_of_singleton.
  - apply orb_false_elim in Hc as [_ Hc]. apply Nat.ltb_ge in Hc.
    by apply dom_singleton_of_size.
Qed.

Lemma OK_alone_subseteq (m m' : FindingSet) : m' ⊆ m -> OK_alone m -> OK_alone m'.
Proof.
  unfold OK_alone. intros Hsub Hm Hin.
  apply subseteq_dom in Hsub.
  assert (Hd : dom m = {["OK"]}) by (apply Hm, Hsub, Hin).
  rewrite Hd in Hsub. apply set_eq. intros x. split; [apply Hsub|].
  by intros ->%elem_of_singleton.
Qed.

Lemma FormatSuggest_locals_subseteq (sql currentDB format : string)
    (suggests : list FindingSet) :
  suggest (FormatSuggest_locals sql currentDB format suggests) ⊆
  filter_suggest (MergeConflictHeuristicRules (merge_suggests suggests)).
Proof.
  unfold FormatSuggest_locals.
  repeat case_match; simpl; try reflexivity;
    apply (format_markdown_subseteq _ _ _ _ (mkLocals _ _ _)).
Qed.

(** C1.  For every SQL text, report format and collection of finding sets,
    the finding set [FormatSuggest] returns has OK as its only code or does
    not hold OK at all (whatever the resolver and the map order). *)
Theorem FormatSuggest_OK_sentinel (sql currentDB format : string)
    (suggests : list FindingSet) :
  dom (FormatSuggest sql currentDB format suggests).1 = {["OK"]} \/
  "OK" ∉ dom (FormatSuggest sql currentDB format suggests).1.
Proof.
  unfold FormatSuggest. simpl.
  assert (H : OK_alone (suggest (FormatSuggest_locals sql currentDB format suggests))).
  { eapply OK_alone_subseteq; [apply FormatSuggest_locals_subseteq|].
    unfold filter_suggest.
    eapply OK_alone_subseteq; [apply drop_ignored_subseteq | apply drop_OK_alone]. }
  destruct (decide ("OK" ∈ dom (suggest (FormatSuggest_locals sql currentDB format suggests))));
    [left; by apply H | by right].
Qed.

Lemma format_markdown_keeps_OK (sql id fingerprint format : string) (st : Locals) :
  suggest (format_markdown sql id fingerprint format st) !! "OK" = suggest st !! "OK".
Proof.
  unfold format_markdown, md_body, md_profiling, md_trace.
  rewrite md_heuristic_suggest, md_index_suggest.
  rewrite !md_dump_suggest, md_explain_suggest, md_mysql_suggest, md_header_suggest.
  simpl. by destruct (suggest st !! "OK").
Qed.

Lemma FormatSuggest_locals_keeps_OK (sql currentDB format : string)
    (suggests : list FindingSet) :
  suggest (FormatSuggest_locals sql currentDB format suggests) !! "OK" =
  filter_suggest (MergeConflictHeuristicRules (merge_suggests suggests)) !! "OK".
Proof.
  unfold FormatSuggest_locals.
  repeat case_match; simpl; try done;
    apply (format_markdown_keeps_OK _ _ _ _ (mkLocals _ _ _)).
Qed.

(** C3 (amended).  When the ignore list holds the bare token OK,
    [FormatSuggest] removes the OK sentinel from every finding set, also from
    the one whose only member it is.  Whatever the ignore list, OK is removed
    when the merged set has more than one member.  OK stays as the only member
    when the ignore list does not hold the bare token OK and no pattern of it
    ignores the code OK. *)
Theorem FormatSuggest_ignore_OK (sql currentDB format : string)
    (suggests : list FindingSet) :
  let merged := MergeConflictHeuristicRules (merge_suggests suggests) in
  let returned := (FormatSuggest sql currentDB format suggests).1 in
  ("OK" ∈ IgnoreRules cfg -> "OK" ∉ dom returned) /\
  ((1 < size merged)%nat -> "OK" ∉ dom returned) /\
  ("OK" ∉ IgnoreRules cfg -> IsIgnoreRule "OK" = false ->
   dom merged = {["OK"]} -> dom returned = {["OK"]}).
Proof.
  intros merged returned.
  assert (Hsub : returned ⊆ drop_ignored (drop_OK (ensure_OK merged)))
    by apply FormatSuggest_locals_subseteq.
  assert (Hdel : ignoreOK || (1 <? size (ensure_OK merged))%nat = true -> "OK" ∉ dom returned).
  { intros Hc. apply subseteq_dom in Hsub.
    pose proof (subseteq_dom _ _ (drop_ignored_subseteq (drop_OK (ensure_OK merged)))) as Hsub'.
    unfold drop_OK in Hsub' at 2. rewrite Hc, dom_delete_L in Hsub'.
    intros Hin. apply Hsub, Hsub', elem_of_difference in Hin as [_ Hin].
    apply Hin. by apply elem_of_singleton. }
  split; [|split].
  - intros Hin. apply Hdel. apply ignoreOK_iff in Hin. by rewrite Hin.
  - intros Hsize. apply Hdel. unfold ensure_OK.
    destruct (size merged <? 1)%nat eqn:Hlt; [apply Nat.ltb_lt in Hlt; lia|].
    apply orb_true_iff. right. apply Nat.ltb_lt, Hsize.
  - intros Hno Hpat Hdom.
    assert (Hsize : size merged = 1%nat).
    { by rewrite <- (size_dom (D := gset string)), Hdom, size_singleton. }
    assert (Hens : ensure_OK merged = merged).
    { unfold ensure_OK. by rewrite Hsize. }
    assert (Hdrop : drop_OK merged = merged).
    { unfold drop_OK. rewrite Hsize.
      destruct ignoreOK eqn:Hi; [by apply ignoreOK_iff in Hi | done]. }
    rewrite Hens, Hdrop in Hsub.
    assert (HOK : is_Some (returned !! "OK")).
    { unfold returned, FormatSuggest. simpl.
      rewrite FormatSuggest_locals_keeps_OK.
      unfold filter_suggest. fold merged. rewrite Hens, Hdrop.
      assert (Hm : is_Some (merged !! "OK")).
      { apply elem_of_dom. rewrite Hdom. by apply elem_of_singleton. }
      destruct Hm as [r Hr]. exists r. by apply drop_ignored_keeps. }
    apply (dom_singleton_of_size returned "OK").
    + rewrite <- Hsize. apply map_subseteq_size. etrans; [apply Hsub|].
      apply drop_ignored_subseteq.
    + by apply elem_of_dom.
Qed.

(** *** What the markdown reports delete *)

(** A [range] loop visits every key of the map it walks, each once. *)
Hypothesis range_order_perm : forall m : FindingSet, range_order m ≡ₚ (map_to_list m).*1.

Lemma elem_of_range_order (m : FindingSet) (k : string) :
  k ∈ range_order m <-> is_Some (m !! k).
Proof.
  rewrite range_order_perm, list_elem_of_fmap. split.
  - intros ([k' r] & -> & Hin). apply elem_of_map_to_list in Hin. by exists r.
  - intros [r Hr]. exists (k, r). split; [done | by apply elem_of_map_to_list].
Qed.

Lemma NoDup_range_order (m : FindingSet) : NoDup (range_order m).
Proof. rewrite range_order_perm. apply NoDup_fst_map_to_list. Qed.

Lemma bind_guard_Some (o : option Rule) (b : bool) (r : Rule) :
  (o ≫= fun r' => if b then None else Some r') = Some r -> o = Some r /\ b = false.
Proof. destruct o as [r'|]; simpl; [|done]. by destruct b. Qed.

Lemma md_mysql_deletes (st : Locals) (k : string) (r : Rule) :
  suggest (md_mysql st) !! k = Some r -> suggest st !! k = Some r /\ is_ERR k = false.
Proof.
  rewrite md_mysql_suggest. intros [Hk Hb]%bind_guard_Some. split; [done|].
  rewrite bool_decide_eq_true_2, andb_true_r in Hb; [done|].
  apply elem_of_range_order. by eexists.
Qed.

Lemma md_dump_deletes (P : string -> bool) (title : string) (st : Locals)
    (k : string) (r : Rule) :
  suggest (md_dump P title st) !! k = Some r -> suggest st !! k = Some r /\ P k = false.
Proof.
  rewrite md_dump_suggest. intros [Hk Hb]%bind_guard_Some. split; [done|].
  rewrite bool_decide_eq_true_2, andb_true_r in Hb; [done|].
  apply elem_of_range_order. by eexists.
Qed.

Lemma md_body_deletes (format : string) (st : Locals) (k : string) (r : Rule) :
  suggest (md_body format st) !! k = Some r ->
  is_ERR k = false /\ is_PRO k = false /\ is_TRA k = false.
Proof.
  unfold md_body, md_profiling, md_trace.
  rewrite md_heuristic_suggest, md_index_suggest.
  intros [H3 HT]%md_dump_deletes.
  apply md_dump_deletes in H3 as [H2 HP].
  rewrite md_explain_suggest in H2.
  destruct (bool_decide (k = "EXP.000") && _); [done|].
  apply md_mysql_deletes in H2 as [_ HE]. done.
Qed.

(** C10.  In the markdown, html, explain-digest and duplicate-key-checker
    formats the finding set [FormatSuggest] returns holds no ERR code with a
    non-empty [Content], no PRO code and no TRA code, whatever the input
    finding sets held. *)
Theorem FormatSuggest_markdown_deletes (sql currentDB format : string)
    (suggests : list FindingSet) (k : string) (r : Rule) :
  is_markdown_family format = true ->
  (FormatSuggest sql currentDB format suggests).1 !! k = Some r ->
  is_failure k r = false /\ is_PRO k = false /\ is_TRA k = false.
Proof.
  intros Hf. unfold FormatSuggest, FormatSuggest_locals. simpl.
  unfold is_markdown_family in Hf.
  destruct (String.eqb format "json") eqn:Hj.
  { apply String.eqb_eq in Hj. subst format. done. }
  destruct (String.eqb format "text") eqn:Ht.
  { apply String.eqb_eq in Ht. subst format. done. }
  destruct (String.eqb format "lint") eqn:Hl.
  { apply String.eqb_eq in Hl. subst format. done. }
  unfold is_markdown_family. rewrite Hf.
  unfold format_markdown. intros (HE & HP & HT)%md_body_deletes.
  unfold is_failure. by rewrite HE.
Qed.

(** *** The score of the json report *)

Lemma wrap64_small (z : Z) : - 2 ^ 63 <= z < 2 ^ 63 -> wrap64 z = z.
Proof. intros Hz. unfold wrap64. rewrite Z.mod_small; lia. Qed.

Lemma Zsum_Permutation (l1 l2 : list Z) : l1 ≡ₚ l2 -> Spec.Zsum l1 = Spec.Zsum l2.
Proof. induction 1; simpl; lia. Qed.

Lemma is_severity_inv (s : string) :
  Spec.is_severity s = true ->
  exists d, s = String "L" (String d EmptyString) /\ Spec.is_digit d = true.
Proof.
  destruct s as [|c [|d [|e s]]]; simpl.
  - done.
  - intros H. exfalso. revert H. by repeat case_match.
  - destruct (Ascii.eqb c "L") eqn:Hc.
    + apply Ascii.eqb_eq in Hc as ->. intros H. by exists d.
    + intros H. exfalso. revert H Hc.
      destruct c as [[] [] [] [] [] [] [] []]; done.
  - intros H. exfalso. revert H. by repeat case_match.
Qed.

Lemma is_digit_cases (d : ascii) :
  Spec.is_digit d = true ->
  d ∈ ["0"; "1"; "2"; "3"; "4"; "5"; "6"; "7"; "8"; "9"]%char.
Proof.
  destruct d as [[] [] [] [] [] [] [] []]; intros H; vm_compute in H; try discriminate H;
    repeat first [by left | right].
Qed.

(** On a severity [L0] ... [L9] both ways of reading the digit ([TrimLeft]
    in [formatJSON], [Trim] in the markdown reports) give the digit. *)
Lemma severity_digit_Atoi (s : string) :
  Spec.is_severity s = true ->
  strconv.Atoi (strings.TrimLeft s "L") = (Spec.severity_digit s, None) /\
  strconv.Atoi (strings.Trim s "L") = (Spec.severity_digit s, None) /\
  0 <= Spec.severity_digit s <= 9.
Proof.
  intros (d & -> & Hd%is_digit_cases)%is_severity_inv.
  repeat (apply elem_of_cons in Hd as [->|Hd]; [vm_compute; repeat split; congruence|]).
  by apply elem_of_nil in Hd.
Qed.

Section JsonScore.

Variable m : FindingSet.

Hypothesis severities_ok :
  forall k r, m !! k = Some r -> Spec.is_severity (Severity r) = true.

Lemma jsonScoreStep_ok (k : string) (score : Z) :
  is_Some (m !! k) ->
  - 2 ^ 62 <= score <= 100 ->
  jsonScoreStep m k score =
  if is_failure k (index m k) then 0 else score - charge m k.
Proof.
  intros [r Hr] Hs. unfold jsonScoreStep, is_failure, charge.
  rewrite (index_lookup m k r Hr).
  destruct (severity_digit_Atoi _ (severities_ok k r Hr)) as (-> & _ & Hd). simpl.
  rewrite (wrap64_small (_ * 5)) by lia.
  rewrite wrap64_small by lia.
  case_match; [done | lia].
Qed.

Lemma charge_bounds (k : string) : is_Some (m !! k) -> 0 <= charge m k <= 45.
Proof.
  intros [r Hr]. unfold charge. rewrite (index_lookup m k r Hr).
  destruct (severity_digit_Atoi _ (severities_ok k r Hr)) as (_ & _ & Hd). lia.
Qed.

Lemma Zsum_charge_nonneg (l : list string) :
  (forall k, k ∈ l -> is_Some (m !! k)) -> 0 <= Spec.Zsum (charge m <$> l).
Proof.
  induction l as [|b l IHl]; intros Hl; [simpl; lia|].
  pose proof (charge_bounds b (Hl b ltac:(by left))).
  change (0 <= charge m b + Spec.Zsum (charge m <$> l)).
  assert (0 <= Spec.Zsum (charge m <$> l)); [|lia].
  apply IHl. intros k Hk. apply Hl. by right.
Qed.

Lemma jsonScore_fold (l : list string) (score : Z) :
  (forall k, k ∈ l -> is_Some (m !! k)) ->
  45 * Z.of_nat (length l) <= 2 ^ 62 ->
  - 2 ^ 62 + 45 * Z.of_nat (length l) <= score <= 100 ->
  let final := foldl (fun s k => match m !! k with
                                 | Some _ => jsonScoreStep m k s
                                 | None => s
                                 end) score l in
  - 2 ^ 62 <= final <= 100 /\
  (existsb (fun k => is_failure k (index m k)) l = false ->
   final = score - Spec.Zsum (charge m <$> l)) /\
  (existsb (fun k => is_failure k (index m k)) l = true -> final <= 0).
Proof.
  revert score. induction l as [|a l IH]; intros score Hl Hlen Hs.
  - simpl in *. split; [lia|]. split; [intros _; lia | done].
  - rewrite length_cons, Nat2Z.inj_succ in Hlen, Hs.
    assert (Ha : is_Some (m !! a)) by (apply Hl; by left).
    pose proof (charge_bounds a Ha) as Hc.
    assert (Hl' : forall k, k ∈ l -> is_Some (m !! k)) by (intros k Hk; apply Hl; by right).
    pose proof (Zsum_charge_nonneg l Hl') as Hsum.
    change (Spec.Zsum (charge m <$> a :: l)) with (charge m a + Spec.Zsum (charge m <$> l)).
    cbn [foldl existsb].
    destruct Ha as [r Hr]. rewrite Hr.
    rewrite jsonScoreStep_ok by (try (by eexists); lia).
    destruct (is_failure a (index m a)) eqn:Hf; simpl.
    + destruct (IH 0 Hl' ltac:(lia) ltac:(lia)) as (Hb & Hno & Hyes).
      split; [done|]. split; [done|]. intros _.
      destruct (existsb _ l) eqn:He; [by apply Hyes|].
      rewrite (Hno eq_refl). lia.
    + destruct (IH (score - charge m a) Hl' ltac:(lia) ltac:(lia)) as (Hb & Hno & Hyes).
      split; [done|]. split; [|done].
      intros He. rewrite (Hno He). lia.
Qed.

End JsonScore.

Lemma range_const_fold {S : Type} (m : FindingSet) (body : string -> Rule -> S -> S) (s : S) :
  range (fun _ => m) body s =
  foldl (fun s k => match m !! k with Some r => body k r s | None => s end) s (range_order m).
Proof. reflexivity. Qed.

Lemma penalty_range_order (m : FindingSet) :
  Spec.Zsum (charge m <$> range_order m) = Spec.penalty m.
Proof.
  unfold Spec.penalty.
  rewrite (Zsum_Permutation _ (charge m <$> (map_to_list m).*1))
    by (apply fmap_Permutation, range_order_perm).
  f_equal. rewrite <- list_fmap_compose. apply list_fmap_ext.
  intros i [k r] Hi. apply list_elem_of_lookup_2, elem_of_map_to_list in Hi.
  simpl. unfold charge. by rewrite (index_lookup m k r Hi).
Qed.

Lemma has_failure_range_order (m : FindingSet) :
  existsb (fun k => is_failure k (index m k)) (range_order m) = true <->
  exists k r, m !! k = Some r /\ is_ERR k = true /\ Content r <> "".
Proof.
  rewrite existsb_exists. unfold is_failure. split.
  - intros (k & Hk & Hf). apply list_elem_of_In, elem_of_range_order in Hk as [r Hr].
    rewrite (index_lookup m k r Hr) in Hf. apply andb_prop in Hf as [HE HC].
    exists k, r. split; [done|]. split; [done|].
    apply negb_true_iff, eqb_false_iff in HC. done.
  - intros (k & r & Hr & HE & HC). exists k. split.
    + apply list_elem_of_In, elem_of_range_order. by eexists.
    + rewrite (index_lookup m k r Hr), HE. simpl.
      apply negb_true_iff, eqb_false_iff. done.
Qed.

(** The value of the json score on well-formed severities. *)
Lemma jsonScore_value (m : FindingSet) :
  (forall k r, m !! k = Some r -> Spec.is_severity (Severity r) = true) ->
  Z.of_nat (size m) < 2 ^ 56 ->
  jsonScore m =
  if existsb (fun k => is_failure k (index m k)) (range_order m)
  then 0 else Z.max 0 (100 - Spec.penalty m).
Proof.
  intros Hsev Hsize. unfold jsonScore. rewrite range_const_fold.
  assert (Hlen : length (range_order m) = size m).
  { rewrite range_order_perm, length_fmap. apply length_map_to_list. }
  destruct (jsonScore_fold m Hsev (range_order m) 100) as (Hb & Hno & Hyes).
  { intros k. apply elem_of_range_order. }
  { rewrite Hlen. lia. }
  { rewrite Hlen. lia. }
  set (final := foldl _ 100 (range_order m)) in *.
  destruct (existsb _ (range_order m)) eqn:He.
  - specialize (Hyes eq_refl). destruct (final <? 0) eqn:Hlt; [done|].
    apply Z.ltb_ge in Hlt. lia.
  - rewrite (Hno eq_refl), penalty_range_order.
    destruct (_ <? 0) eqn:Hlt; [apply Z.ltb_lt in Hlt | apply Z.ltb_ge in Hlt]; lia.
Qed.

Lemma penalty_nonneg (m : FindingSet) :
  (forall k r, m !! k = Some r -> Spec.is_severity (Severity r) = true) ->
  0 <= Spec.penalty m.
Proof.
  intros Hsev. rewrite <- penalty_range_order.
  apply (Zsum_charge_nonneg m Hsev). intros k. apply elem_of_range_order.
Qed.

(** C6 (amended).  For every finding set whose severities are [L0] ... [L9]
    (and of a size a Go map can have), the score of the json report starts
    at 100 and loses five times the severity digit of each finding; it is 0
    whenever an ERR finding with non-empty [Content] is present; and it lies
    in [0, 100]. *)
Theorem formatJSON_score (sql db : string) (m : FindingSet) :
  (forall k r, m !! k = Some r -> Spec.is_severity (Severity r) = true) ->
  Z.of_nat (size m) < 2 ^ 56 ->
  let score := js_Score (formatJSON_sug sql db m) in
  0 <= score <= 100 /\
  ((exists k r, m !! k = Some r /\ is_ERR k = true /\ Content r <> "") -> score = 0) /\
  ((forall k r, m !! k = Some r -> is_ERR k = true -> Content r = "") ->
   score = Z.max 0 (100 - Spec.penalty m)).
Proof.
  intros Hsev Hsize. simpl. rewrite (jsonScore_value m Hsev Hsize).
  pose proof (penalty_nonneg m Hsev) as Hpen.
  destruct (existsb _ (range_order m)) eqn:He.
  - split; [lia|]. split; [done|]. intros Hnone.
    apply has_failure_range_order in He as (k & r & Hr & HE & HC).
    by specialize (Hnone k r Hr HE).
  - split; [lia|]. split; [|done]. intros Hex.
    apply has_failure_range_order in Hex. congruence.
Qed.

(** *** Placeholders *)

Lemma str_le_trans (a b c : string) : str_le a b -> str_le b c -> str_le a c.
Proof.
  unfold str_le, String.leb. revert b c.
  induction a as [|x a IH]; intros [|y b] [|z c]; simpl; try done.
  unfold Ascii.compare.
  destruct (N.compare_spec (N_of_ascii x) (N_of_ascii y)) as [Hxy|Hxy|Hxy];
  destruct (N.compare_spec (N_of_ascii y) (N_of_ascii z)) as [Hyz|Hyz|Hyz];
  destruct (N.compare_spec (N_of_ascii x) (N_of_ascii z)) as [Hxz|Hxz|Hxz];
    try done; try lia.
  apply IH.
Qed.

Lemma str_le_transitive : Transitive str_le.
Proof. intros a b c. apply str_le_trans. Qed.

Lemma str_le_total : Total str_le.
Proof. intros a b. apply String.leb_total. Qed.

Lemma str_le_antisymm : AntiSymm eq str_le.
Proof. intros a b. apply String.leb_antisym. Qed.

(** [sort.Strings] gives one result for all arrangements of the same codes. *)
Lemma sort_Strings_Permutation (l1 l2 : list string) :
  l1 ≡ₚ l2 -> sort_Strings l1 = sort_Strings l2.
Proof.
  intros Hp. unfold sort_Strings.
  apply (@StronglySorted_unique _ str_le str_le_antisymm).
  - apply (@StronglySorted_merge_sort _ str_le _ str_le_transitive str_le_total).
  - apply (@StronglySorted_merge_sort _ str_le _ str_le_transitive str_le_total).
  - by rewrite !merge_sort_Permutation.
Qed.

Lemma without_placeholders_lookup (m : FindingSet) (k : string) :
  without_placeholders m !! k =
  m !! k ≫= fun r => if is_placeholder k r then None else Some r.
Proof.
  unfold without_placeholders. apply option_eq. intros r'.
  rewrite map_lookup_filter_Some. simpl.
  destruct (m !! k) as [r|]; simpl.
  - destruct (is_placeholder k r) eqn:Hp.
    + split; [intros [[= ->] ?]; congruence | done].
    + split; [by intros [? _] | intros [= ->]; done].
  - split; [by intros [? _] | done].
Qed.

Lemma md_mysql_scan_map (m : FindingSet) : (md_mysql_scan m).1 = without_placeholders m.
Proof.
  rewrite md_mysql_scan_eq. simpl. apply map_eq. intros k.
  rewrite foldl_delete_if_lookup, without_placeholders_lookup.
  destruct (m !! k) as [r|] eqn:Hm; simpl; [|done].
  rewrite bool_decide_eq_true_2; [done|].
  apply elem_of_range_order. by eexists.
Qed.

Lemma md_mysql_scan_failures (m : FindingSet) (k : string) :
  k ∈ (md_mysql_scan m).2 <-> exists r, m !! k = Some r /\ is_failure k r = true.
Proof.
  rewrite md_mysql_scan_eq. simpl. rewrite list_elem_of_filter, elem_of_range_order.
  split.
  - intros [[[r Hr] Hf] _]. exists r. by rewrite (index_lookup m k r Hr) in Hf.
  - intros (r & Hr & Hf). rewrite (index_lookup m k r Hr).
    split; [split|]; try done; by eexists.
Qed.

Lemma md_mysql_scan_NoDup (m : FindingSet) : NoDup (md_mysql_scan m).2.
Proof. rewrite md_mysql_scan_eq. simpl. apply NoDup_filter, NoDup_range_order. Qed.

Lemma md_mysql_scan_without_placeholders (m : FindingSet) :
  (md_mysql_scan (without_placeholders m)).1 = (md_mysql_scan m).1 /\
  sort_Strings (md_mysql_scan (without_placeholders m)).2 = sort_Strings (md_mysql_scan m).2.
Proof.
  split.
  - rewrite !md_mysql_scan_map. apply map_eq. intros k.
    rewrite !without_placeholders_lookup.
    destruct (m !! k) as [r|]; simpl; [|done].
    destruct (is_placeholder k r) eqn:Hp; simpl; [done | by rewrite Hp].
  - apply sort_Strings_Permutation.
    apply NoDup_Permutation; try apply md_mysql_scan_NoDup.
    intros k. rewrite !md_mysql_scan_failures.
    split; intros (r & Hr & Hf); exists r; (split; [|done]).
    + rewrite without_placeholders_lookup in Hr.
      destruct (m !! k) as [r'|]; simpl in Hr; [|done]. by case_match.
    + rewrite without_placeholders_lookup, Hr. simpl.
      unfold is_failure in Hf. unfold is_placeholder.
      apply andb_prop in Hf as [-> HC]. apply negb_true_iff in HC. by rewrite HC.
Qed.

Lemma md_mysql_without_placeholders (st : Locals) :
  md_mysql (mkLocals (without_placeholders (suggest st)) (buf st) (score st)) = md_mysql st.
Proof.
  unfold md_mysql. simpl.
  destruct (md_mysql_scan_without_placeholders (suggest st)) as [-> ->]. done.
Qed.

Lemma formatJSON_array (m : FindingSet) (P : string -> bool) (r : Rule) :
  r ∈ index m <$> sort_Strings (collect m P) ->
  exists k, m !! k = Some r /\ P k = true.
Proof.
  intros (k & -> & Hk)%list_elem_of_fmap.
  apply elem_of_sort_Strings, elem_of_collect in Hk as (_ & [r Hr] & HP).
  exists k. by rewrite (index_lookup m k r Hr).
Qed.

Lemma is_EXP_not_ERR (k : string) : is_EXP k = true -> is_ERR k = false.
Proof. unfold is_EXP, is_ERR. intros [rest ->]%HasPrefix_spec. reflexivity. Qed.

Lemma is_IDX_not_ERR (k : string) : is_IDX k = true -> is_ERR k = false.
Proof. unfold is_IDX, is_ERR. intros [rest ->]%HasPrefix_spec. reflexivity. Qed.

Lemma format_text_eq (sql id : string) (m : FindingSet) :
  format_text sql id m = range_order m ≫= fun k => text_block sql id k (index m k).
Proof.
  unfold format_text. rewrite range_const_fold.
  assert (H : forall l acc, (forall k, k ∈ l -> is_Some (m !! k)) ->
            foldl (fun s k => match m !! k with
                              | Some r => s ++ text_block sql id k r
                              | None => s
                              end) acc l
            = acc ++ (l ≫= fun k => text_block sql id k (index m k))).
  { induction l as [|a l IH]; intros acc Hl.
    - by rewrite app_nil_r.
    - cbn [foldl]. rewrite bind_cons.
      destruct (Hl a ltac:(by left)) as [r Hr]. rewrite Hr, (index_lookup m a r Hr).
      rewrite IH, <- app_assoc; [done|]. intros k Hk. apply Hl. by right. }
  apply (H _ []). intros k. apply elem_of_range_order.
Qed.

Lemma format_lint_eq (m : FindingSet) :
  format_lint m =
  range_order m ≫= fun k =>
    if negb (String.eqb k "OK") && negb (is_EXP k) then [lint_line k (index m k)] else [].
Proof.
  unfold format_lint. rewrite range_const_fold.
  assert (H : forall l acc, (forall k, k ∈ l -> is_Some (m !! k)) ->
            foldl (fun s k => match m !! k with
                              | Some r =>
                                  if negb (String.eqb k "OK") && negb (is_EXP k)
                                  then s ++ [lint_line k r] else s
                              | None => s
                              end) acc l
            = acc ++ (l ≫= fun k =>
                if negb (String.eqb k "OK") && negb (is_EXP k)
                then [lint_line k (index m k)] else [])).
  { induction l as [|a l IH]; intros acc Hl.
    - by rewrite app_nil_r.
    - cbn [foldl]. rewrite bind_cons.
      destruct (Hl a ltac:(by left)) as [r Hr]. rewrite Hr, (index_lookup m a r Hr).
      rewrite IH by (intros k Hk; apply Hl; by right).
      destruct (negb (String.eqb a "OK") && negb (is_EXP a)); [by rewrite <- app_assoc | done]. }
  apply (H _ []). intros k. apply elem_of_range_order.
Qed.

Lemma FormatSuggest_keeps_set (sql currentDB format : string) (suggests : list FindingSet) :
  is_markdown_family format = false ->
  (FormatSuggest sql currentDB format suggests).1 =
  filter_suggest (MergeConflictHeuristicRules (merge_suggests suggests)).
Proof.
  intros Hf. unfold FormatSuggest, FormatSuggest_locals. simpl.
  rewrite Hf. by repeat case_match.
Qed.

(** C8 (amended).  In the markdown family the first block below the header
    deletes the ERR findings with empty [Content] before any score arithmetic
    and before any finding is rendered: the blocks render, score and return
    what they would without them, and the returned set holds none.  In the
    json report no rule array shows one.  The text and the lint report render
    a block or a line for every finding of the set (lint: but OK and EXP),
    placeholders included, and outside the markdown family the returned set
    is the set as the ignore filter left it. *)
Theorem placeholders_dropped (sql db format : string) (st : Locals) (m : FindingSet)
    (suggests : list FindingSet) :
  md_body format st =
    md_body format (mkLocals (without_placeholders (suggest st)) (buf st) (score st)) /\
  (forall k r, suggest (md_body format st) !! k = Some r -> is_placeholder k r = false) /\
  (forall r, r ∈ js_Explain (formatJSON_sug sql db m) ++
                 js_IndexRules (formatJSON_sug sql db m) ++
                 js_HeuristicRules (formatJSON_sug sql db m) ->
     exists k, m !! k = Some r /\ is_placeholder k r = false) /\
  format_text sql db m = (range_order m ≫= fun k => text_block sql db k (index m k)) /\
  format_lint m =
    (range_order m ≫= fun k =>
       if negb (String.eqb k "OK") && negb (is_EXP k) then [lint_line k (index m k)] else []) /\
  (is_markdown_family format = false ->
   (FormatSuggest sql db format suggests).1 =
   filter_suggest (MergeConflictHeuristicRules (merge_suggests suggests))).
Proof.
  split; [|split; [|split; [|split; [|split]]]].
  - unfold md_body. by rewrite md_mysql_without_placeholders.
  - intros k r Hk.
    assert (HE : is_ERR k = false).
    { by apply md_body_deletes in Hk as [? _]. }
    unfold is_placeholder. by rewrite HE.
  - intros r. simpl. rewrite !elem_of_app.
    intros [H|[H|H]]; apply formatJSON_array in H as (k & Hk & HP); exists k; (split; [done|]).
    + unfold is_placeholder. by rewrite (is_EXP_not_ERR k HP).
    + unfold is_placeholder. by rewrite (is_IDX_not_ERR k HP).
    + unfold jsonHeuristic in HP. rewrite (index_lookup m k r Hk) in HP.
      apply andb_prop in HP as [_ HP]. by apply negb_true_iff in HP.
  - apply format_text_eq.
  - apply format_lint_eq.
  - apply FormatSuggest_keeps_set.
Qed.

(** *** The merge and the ignore filter as maps *)

Lemma merge_fold_lookup (s : FindingSet) (l : list string) (acc : FindingSet) (k : string) :
  foldl (fun a item => match s !! item with
                       | Some r => <[item := r]> a
                       | None => a
                       end) acc l !! k
  = if bool_decide (k ∈ l) then from_option Some (acc !! k) (s !! k) else acc !! k.
Proof.
  revert acc. induction l as [|a l IH]; intros acc; [done|].
  cbn [foldl]. rewrite IH. clear IH.
  destruct (decide (k = a)) as [->|Hne].
  - rewrite (bool_decide_eq_true_2 (a ∈ a :: l)) by (by left).
    destruct (s !! a) as [r|] eqn:Hs; simpl.
    + rewrite lookup_insert_eq. by case_match.
    + by case_match.
  - rewrite (bool_decide_ext (k ∈ a :: l) (k ∈ l)).
    2:{ rewrite elem_of_cons. split; [by intros [?|?] | by right]. }
    destruct (s !! a) as [r|]; [|done].
    by rewrite lookup_insert_ne.
Qed.

(** One round of the merge loop is a union in which the later set wins. *)
Lemma merge_round (s acc : FindingSet) :
  range (fun _ => s) (fun item rule suggest => <[item := rule]> suggest) acc = s ∪ acc.
Proof.
  rewrite range_const_fold. apply map_eq. intros k.
  rewrite merge_fold_lookup, lookup_union.
  destruct (s !! k) as [r|] eqn:Hs; simpl.
  - rewrite bool_decide_eq_true_2.
    + by destruct (acc !! k).
    + apply elem_of_range_order. by eexists.
  - rewrite bool_decide_eq_false_2.
    + by destruct (acc !! k).
    + rewrite elem_of_range_order, Hs. by intros [? ?].
Qed.

Lemma merge_suggests_eq (suggests : list FindingSet) :
  merge_suggests suggests = foldl (fun acc s => s ∪ acc) ∅ suggests.
Proof.
  unfold merge_suggests. generalize (∅ : FindingSet).
  induction suggests as [|s ss IH]; intros acc; [done|].
  cbn [foldl]. by rewrite merge_round, IH.
Qed.

(** The ignore loop leaves exactly the codes [IsIgnoreRule] rejects. *)
Lemma drop_ignored_eq (m : FindingSet) :
  drop_ignored m = filter (fun kr : string * Rule => IsIgnoreRule kr.1 = false) m.
Proof.
  apply map_eq. intros k. rewrite drop_ignored_lookup.
  apply option_eq. intros r. rewrite map_lookup_filter_Some. simpl.
  destruct (m !! k) as [r'|] eqn:Hm; simpl.
  - rewrite bool_decide_eq_true_2 by (apply elem_of_range_order; by eexists). simpl.
    destruct (IsIgnoreRule k).
    + split; [done | by intros [_ ?]].
    + split; [by intros [= ->] | by intros [? _]].
  - split; [done | by intros [? _]].
Qed.

(** *** More on the ignore filter *)

Lemma append_cons (a : ascii) (s t : string) : String a s +:+ t = String a (s +:+ t).
Proof. reflexivity. Qed.

Lemma append_assoc (a b c : string) : (a +:+ b) +:+ c = a +:+ (b +:+ c).
Proof. induction a as [|x a IH]; [done|]. by rewrite !append_cons, IH. Qed.

(** X3.  The patterns are prefixes: a list that ignores a code ignores every
    code that begins with it. *)
Theorem IsIgnoreRule_extends (item suffix : string) :
  IsIgnoreRule item = true -> IsIgnoreRule (item +:+ suffix) = true.
Proof.
  unfold IsIgnoreRule. rewrite !IsIgnoreRule_loop_iff.
  intros (ir & Hin & Hne & Hok & rest & ->).
  exists ir. repeat split; try done.
  exists (rest +:+ suffix). apply append_assoc.
Qed.

(** X4.  The code OK is ignored exactly when some pattern, its stars
    stripped, is the single letter O: the pattern OK itself is skipped, and no
    other prefix of OK is left. *)
Theorem IsIgnoreRule_OK :
  IsIgnoreRule "OK" = true <-> exists ir, ir ∈ IgnoreRules cfg /\ strings.Trim ir "*" = "O".
Proof.
  unfold IsIgnoreRule. rewrite IsIgnoreRule_loop_iff. split.
  - intros (ir & Hin & Hne & Hok & rest & Hrest). exists ir. split; [done|].
    destruct (strings.Trim ir "*") as [|a [|b [|c p]]]; try done.
    + rewrite append_cons in Hrest. by injection Hrest as <- _.
    + rewrite !append_cons in Hrest. injection Hrest as <- <- _. done.
  - intros (ir & Hin & Heq). exists ir. rewrite Heq.
    repeat split; try done. by exists "K".
Qed.

Lemma TrimRight_app_star (s : string) :
  strings.TrimRight (s +:+ "*") "*" = strings.TrimRight s "*".
Proof.
  induction s as [|a s IH]; [done|].
  rewrite append_cons. cbn [strings.TrimRight]. by rewrite IH.
Qed.

Lemma Trim_app_star (s : string) : strings.Trim (s +:+ "*") "*" = strings.Trim s "*".
Proof.
  unfold strings.Trim. induction s as [|a s IH]; [done|].
  rewrite append_cons. cbn [strings.TrimLeft].
  destruct (strings.in_cutset a "*"); [done|].
  rewrite <- append_cons. apply TrimRight_app_star.
Qed.

Lemma Trim_star_app (s : string) : strings.Trim ("*" +:+ s) "*" = strings.Trim s "*".
Proof. reflexivity. Qed.

(** X5.  Stars around a pattern do not count: [XXX], [XXX*] and [*XXX] are
    the same ignore pattern. *)
Theorem IsIgnoreRule_star_insensitive (irs irs' : list string) (item : string) :
  Forall2 (fun ir ir' => ir' = ir +:+ "*" \/ ir' = "*" +:+ ir \/ ir' = ir) irs irs' ->
  IsIgnoreRule_loop irs' item = IsIgnoreRule_loop irs item.
Proof.
  induction 1 as [|ir ir' irs irs' Hir _ IH]; [done|].
  cbn [IsIgnoreRule_loop]. rewrite IH.
  assert (Ht : strings.Trim ir' "*" = strings.Trim ir "*").
  { destruct Hir as [->|[->| ->]];
      [apply Trim_app_star | apply Trim_star_app | done]. }
  by rewrite Ht.
Qed.

(** *** More on the black list *)

(** X6.  The empty statement is on the black list only through an empty
    entry: a regular expression finds nothing but the empty text in it, and
    the empty match does not count. *)
Theorem InBlackList_empty_sql :
  (forall rx m, Find re rx "" = Some m -> m = "") ->
  (InBlackList "" = true <-> "" ∈ BlackList cfg).
Proof.
  intros Hfind. unfold InBlackList. rewrite InBlackList_loop_iff. split.
  - intros (r & Hin & [<-|(rx & m & _ & Hm & Hne)]); [done|].
    by apply Hfind in Hm.
  - intros Hin. exists "". split; [done | by left].
Qed.

(** *** The finding set that comes back *)

Lemma md_mysql_suggest_all (st : Locals) (k : string) :
  suggest (md_mysql st) !! k = if is_ERR k then None else suggest st !! k.
Proof.
  rewrite md_mysql_suggest. destruct (suggest st !! k) as [r|] eqn:Hk; simpl.
  - rewrite bool_decide_eq_true_2, andb_true_r; [done|].
    apply elem_of_range_order. by eexists.
  - by case_match.
Qed.

Lemma md_dump_suggest_all (P : string -> bool) (title : string) (st : Locals) (k : string) :
  suggest (md_dump P title st) !! k = if P k then None else suggest st !! k.
Proof.
  rewrite md_dump_suggest. destruct (suggest st !! k) as [r|] eqn:Hk; simpl.
  - rewrite bool_decide_eq_true_2, andb_true_r; [done|].
    apply elem_of_range_order. by eexists.
  - by case_match.
Qed.

Lemma md_body_suggest_lookup (format : string) (st : Locals) (k : string) :
  suggest (md_body format st) !! k =
  suggest st !! k ≫= fun r => if md_kept k r then Some r else None.
Proof.
  unfold md_body, md_profiling, md_trace.
  rewrite md_heuristic_suggest, md_index_suggest, !md_dump_suggest_all, md_explain_suggest.
  assert (He : index (suggest (md_mysql st)) "EXP.000" = index (suggest st) "EXP.000").
  { unfold index. by rewrite md_mysql_suggest_all. }
  rewrite He, md_mysql_suggest_all. unfold md_kept.
  destruct (is_TRA k); [by destruct (suggest st !! k); simpl; rewrite ?andb_false_r|].
  destruct (is_PRO k); [by destruct (suggest st !! k); simpl; rewrite ?andb_false_r|].
  destruct (is_ERR k) eqn:HE.
  { destruct (suggest st !! k); simpl; by case_match. }
  simpl. case_bool_decide as Hk; simpl.
  - subst k. destruct (suggest st !! "EXP.000") as [r|] eqn:Hr; simpl.
    + rewrite (index_lookup _ _ _ Hr). by destruct (String.eqb (Item r) "").
    + by case_match.
  - apply String.eqb_neq in Hk. rewrite Hk. simpl. by destruct (suggest st !! k).
Qed.

Lemma md_body_suggest_eq (format : string) (st : Locals) :
  suggest (md_body format st) =
  filter (fun kr : string * Rule => md_kept kr.1 kr.2 = true) (suggest st).
Proof.
  apply map_eq. intros k. rewrite md_body_suggest_lookup.
  apply option_eq. intros r. rewrite map_lookup_filter_Some. simpl.
  destruct (suggest st !! k) as [r'|]; simpl.
  - destruct (md_kept k r') eqn:Hm.
    + split; [by intros [= ->] | by intros [? _]].
    + split; [done | intros [[= ->] ?]; congruence].
  - split; [done | by intros [? _]].
Qed.

(** The set [FormatSuggest] returns, in every format. *)
Lemma FormatSuggest_returned_eq (sql currentDB format : string) (suggests : list FindingSet) :
  (FormatSuggest sql currentDB format suggests).1 =
  let kept := filter_suggest (MergeConflictHeuristicRules (merge_suggests suggests)) in
  if is_markdown_family format
  then filter (fun kr : string * Rule => md_kept kr.1 kr.2 = true) kept
  else kept.
Proof.
  cbv zeta. destruct (is_markdown_family format) eqn:Hf.
  - unfold FormatSuggest, FormatSuggest_locals. cbn [fst].
    destruct (String.eqb format "json") eqn:Hj.
    { apply String.eqb_eq in Hj. subst format. done. }
    destruct (String.eqb format "text") eqn:Ht.
    { apply String.eqb_eq in Ht. subst format. done. }
    destruct (String.eqb format "lint") eqn:Hl.
    { apply String.eqb_eq in Hl. subst format. done. }
    rewrite Hf. unfold format_markdown.
    by rewrite md_body_suggest_eq, md_header_suggest.
  - by apply FormatSuggest_keeps_set.
Qed.

(** X7.  No code that [IsIgnoreRule] accepts is in the finding set that
    [FormatSuggest] returns. *)
Theorem FormatSuggest_returns_no_ignored (sql currentDB format : string)
    (suggests : list FindingSet) (k : string) :
  k ∈ dom (FormatSuggest sql currentDB format suggests).1 -> IsIgnoreRule k = false.
Proof.
  intros [r Hr]%elem_of_dom.
  pose proof (lookup_weaken _ _ _ _ Hr
                (FormatSuggest_locals_subseteq sql currentDB format suggests)) as Hk.
  unfold filter_suggest in Hk. rewrite drop_ignored_eq in Hk.
  by apply map_lookup_filter_Some in Hk as [_ ?].
Qed.

(** X8.  In the markdown, html, explain-digest and duplicate-key-checker
    formats the returned finding set is the set the ignore filter left, less
    the ERR, PRO and TRA codes and less EXP.000 when its [Item] is set; every
    other finding comes back as it went in. *)
Theorem FormatSuggest_markdown_returned (sql currentDB format : string)
    (suggests : list FindingSet) :
  is_markdown_family format = true ->
  (FormatSuggest sql currentDB format suggests).1 =
  filter (fun kr : string * Rule => md_kept kr.1 kr.2 = true)
         (filter_suggest (MergeConflictHeuristicRules (merge_suggests suggests))).
Proof. intros Hf. by rewrite FormatSuggest_returned_eq, Hf. Qed.

(** X9.  The merge is last-write-wins: a code comes out of the merge with
    the rule of the last input set that holds it. *)
Theorem merge_suggests_last_wins (suggests : list FindingSet) (k : string) (r : Rule) :
  merge_suggests suggests !! k = Some r <->
  exists i s, suggests !! i = Some s /\ s !! k = Some r /\
    forall j s', (i < j)%nat -> suggests !! j = Some s' -> s' !! k = None.
Proof.
  rewrite merge_suggests_eq.
  induction suggests as [|s ss IH] using rev_ind.
  - simpl. split; [done | by intros (i & s & Hi & _)].
  - rewrite foldl_snoc, lookup_union_Some_raw, IH. clear IH. split.
    + intros [Hs|[Hs (i & s0 & Hi & Hk & Hlast)]].
      * exists (length ss), s. split; [by rewrite list_lookup_middle|]. split; [done|].
        intros j s' Hj Hs'. apply lookup_lt_Some in Hs'. rewrite length_app in Hs'.
        simpl in Hs'. lia.
      * exists i, s0. split; [by apply lookup_app_l_Some|]. split; [done|].
        intros j s' Hj Hs'. apply lookup_app_Some in Hs' as [Hs'|[Hge Hs']].
        -- by apply (Hlast j).
        -- apply list_lookup_singleton_Some in Hs' as [_ <-]. done.
    + intros (i & s0 & Hi & Hk & Hlast).
      apply lookup_app_Some in Hi as [Hi|[Hge Hi]].
      * right. split.
        -- apply (Hlast (length ss)); [by apply lookup_lt_Some in Hi|].
           by rewrite list_lookup_middle.
        -- exists i, s0. split; [done|]. split; [done|].
           intros j s' Hj Hs'. apply (Hlast j); [done|]. by apply lookup_app_l_Some.
      * apply list_lookup_singleton_Some in Hi as [_ <-]. by left.
Qed.

(** X10.  With [ReportType] markdown or html the json report is lost: the
    scoring switch wants more than one piece in [buf] and the json case
    appends one, so [FormatSuggest] returns the empty string; with any other
    [ReportType] it returns what [formatJSON] gave. *)
Theorem FormatSuggest_json_string (sql currentDB : string) (suggests : list FindingSet) :
  (FormatSuggest sql currentDB "json" suggests).2 =
  if String.eqb (ReportType cfg) "markdown" || String.eqb (ReportType cfg) "html"
  then EmptyString
  else formatJSON sql currentDB
         (filter_suggest (MergeConflictHeuristicRules (merge_suggests suggests))).
Proof.
  unfold FormatSuggest, FormatSuggest_locals, render. simpl.
  by destruct (String.eqb (ReportType cfg) "markdown" || String.eqb (ReportType cfg) "html").
Qed.

Lemma HeuristicRules_OK : index HeuristicRules "OK" = mkRule "OK" "L0" "OK" "OK" "OK" 0.
Proof. apply index_lookup, HeuristicRules_lookup. vm_compute. by left. Qed.

(** X11.  With nothing to report (the merged set is empty) and OK not
    ignored, [FormatSuggest] returns the catalog's OK rule as the only
    finding, in every format. *)
Theorem FormatSuggest_empty_input (sql currentDB format : string)
    (suggests : list FindingSet) :
  MergeConflictHeuristicRules (merge_suggests suggests) = ∅ ->
  "OK" ∉ IgnoreRules cfg -> IsIgnoreRule "OK" = false ->
  (FormatSuggest sql currentDB format suggests).1 =
  {["OK" := mkRule "OK" "L0" "OK" "OK" "OK" 0]}.
Proof.
  intros Hempty Hno Hpat. rewrite FormatSuggest_returned_eq, Hempty. cbv zeta.
  assert (Hf : filter_suggest ∅ = {["OK" := mkRule "OK" "L0" "OK" "OK" "OK" 0]}).
  { unfold filter_suggest, ensure_OK, drop_OK. rewrite map_size_empty. simpl.
    rewrite HeuristicRules_OK, map_size_singleton. simpl.
    destruct ignoreOK eqn:Hi; [by apply ignoreOK_iff in Hi|]. simpl.
    rewrite drop_ignored_eq. apply map_filter_id.
    intros k r [<- <-]%lookup_singleton_Some. done. }
  rewrite Hf. case_match; [|done].
  apply map_filter_id. intros k r [<- <-]%lookup_singleton_Some. done.
Qed.

(** *** The arrays of the json report *)

Lemma NoDup_collect (m : FindingSet) (P : string -> bool) : NoDup (collect m P).
Proof. rewrite collect_eq. apply NoDup_filter, NoDup_range_order. Qed.

Lemma sorted_collect_codes (m : FindingSet) (P : string -> bool) :
  sorted_codes m P (sort_Strings (collect m P)).
Proof.
  unfold sorted_codes, sort_Strings. split; [|split].
  - apply (@StronglySorted_merge_sort _ str_le _ str_le_transitive str_le_total).
  - rewrite merge_sort_Permutation. apply NoDup_collect.
  - intros k. rewrite merge_sort_Permutation, elem_of_collect, elem_of_range_order.
    split; [by intros (_ & ? & ?) | by intros [? ?]].
Qed.

(** X12.  Each array of the json document lists the rules of its codes in
    ascending order of the code, each code once: Explain the EXP codes,
    IndexRules the IDX codes, HeuristicRules all the others but the ERR
    findings with empty [Content]. *)
Theorem formatJSON_arrays (sql db : string) (m : FindingSet) :
  exists ke ki kh,
    js_Explain (formatJSON_sug sql db m) = index m <$> ke /\
    js_IndexRules (formatJSON_sug sql db m) = index m <$> ki /\
    js_HeuristicRules (formatJSON_sug sql db m) = index m <$> kh /\
    sorted_codes m is_EXP ke /\
    sorted_codes m is_IDX ki /\
    sorted_codes m (fun k => negb (is_EXP k) && negb (is_IDX k) &&
                             negb (is_placeholder k (index m k))) kh.
Proof.
  exists (sort_Strings (collect m is_EXP)), (sort_Strings (collect m is_IDX)),
         (sort_Strings (collect m (jsonHeuristic m))).
  split; [done|]. split; [done|]. split; [done|].
  split; [apply sorted_collect_codes|]. split; [apply sorted_collect_codes|].
  apply (sorted_collect_codes m (jsonHeuristic m)).
Qed.

(** *** The score of the markdown reports *)

Lemma score_foldl_keep (f : Locals -> string -> Locals) (l : list string) (st : Locals) :
  (forall st item, score (f st item) = score st) ->
  score (foldl f st l) = score st.
Proof.
  intros Hf. revert st. induction l as [|a l IH]; intros st; simpl; [done|].
  by rewrite IH, Hf.
Qed.

Lemma has_failure_iff (m : FindingSet) :
  has_failure m = true <-> exists k r, m !! k = Some r /\ is_failure k r = true.
Proof.
  unfold has_failure. rewrite existsb_exists. split.
  - intros ([k r] & Hin & Hf). exists k, r.
    by apply list_elem_of_In, elem_of_map_to_list in Hin.
  - intros (k & r & Hk & Hf). exists (k, r).
    split; [by apply list_elem_of_In, elem_of_map_to_list | done].
Qed.

Lemma md_fail_loop_score (l : list string) (st : Locals) :
  score st = 0 ->
  score (foldl (fun st item =>
           mkLocals (delete item (suggest st))
             (buf st ++ [fmt.Sprintln1 (Content (index (suggest st) item))])
             0) st l) = 0.
Proof.
  revert st. induction l as [|b l IH]; intros st Hst; [done|].
  cbn [foldl]. by apply IH.
Qed.

(** The MySQL block sets the score to 0 when it shows a failure. *)
Lemma md_mysql_score (st : Locals) :
  score (md_mysql st) = if has_failure (suggest st) then 0 else score st.
Proof.
  unfold md_mysql. cbv zeta.
  destruct (sort_Strings (md_mysql_scan (suggest st)).2) as [|a l] eqn:Hs.
  - simpl. destruct (has_failure (suggest st)) eqn:Hf; [|done].
    apply has_failure_iff in Hf as (k & r & Hk & Hf).
    assert (Hin : k ∈ sort_Strings (md_mysql_scan (suggest st)).2).
    { apply elem_of_sort_Strings, md_mysql_scan_failures. by exists r. }
    rewrite Hs in Hin. by apply elem_of_nil in Hin.
  - assert (Hf : has_failure (suggest st) = true).
    { apply has_failure_iff.
      assert (Hin : a ∈ sort_Strings (md_mysql_scan (suggest st)).2) by (rewrite Hs; by left).
      apply elem_of_sort_Strings, md_mysql_scan_failures in Hin.
      destruct Hin as (r & Hr & Hf). by exists a, r. }
    rewrite Hf. cbn [foldl].
    apply (md_fail_loop_score l). done.
Qed.

Lemma md_explain_score (st : Locals) : score (md_explain st) = score st.
Proof.
  unfold md_explain. cbv zeta. rewrite score_foldl_keep by done. by case_match.
Qed.

Lemma md_dump_score (P : string -> bool) (title : string) (st : Locals) :
  score (md_dump P title st) = score st.
Proof. unfold md_dump. cbv zeta. by rewrite score_foldl_keep. Qed.

(** A loop over sorted codes that leaves [suggest] alone, seen from [score]. *)
Lemma score_foldl (f : Locals -> string -> Locals) (g : FindingSet -> string -> Z -> Z)
    (l : list string) (st : Locals) :
  (forall st item, suggest (f st item) = suggest st) ->
  (forall st item, score (f st item) = g (suggest st) item (score st)) ->
  score (foldl f st l) = foldl (fun s item => g (suggest st) item s) (score st) l.
Proof.
  intros Hs Hg. revert st. induction l as [|a l IH]; intros st; [done|].
  cbn [foldl]. by rewrite IH, Hs, Hg.
Qed.

Lemma mdScore_ok (severity : string) (s : Z) :
  Spec.is_severity severity = true -> - 2 ^ 62 <= s <= 100 ->
  mdScore severity s = s - 5 * Spec.severity_digit severity.
Proof.
  intros Hsev Hs. unfold mdScore.
  destruct (severity_digit_Atoi _ Hsev) as (_ & -> & Hd).
  rewrite (wrap64_small (_ * 5)) by lia. rewrite wrap64_small by lia. lia.
Qed.

Section MarkdownScore.

Variable m : FindingSet.
Variable counted : string -> bool.

Hypothesis counted_ok :
  forall k r, m !! k = Some r -> counted k = true -> Spec.is_severity (Severity r) = true.

Lemma mdScore_fold (l : list string) (s : Z) :
  (forall k, k ∈ l -> is_Some (m !! k)) ->
  45 * Z.of_nat (length l) <= 2 ^ 62 ->
  - 2 ^ 62 + 45 * Z.of_nat (length l) <= s <= 100 ->
  foldl (fun s item => if counted item then mdScore (Severity (index m item)) s else s) s l
  = s - Spec.Zsum (charge m <$> filter (fun k => counted k = true) l).
Proof.
  revert s. induction l as [|a l IH]; intros s Hl Hlen Hs.
  - simpl. lia.
  - rewrite length_cons, Nat2Z.inj_succ in Hlen, Hs. cbn [foldl].
    destruct (Hl a ltac:(by left)) as [r Hr].
    assert (Hl' : forall k, k ∈ l -> is_Some (m !! k)) by (intros k Hk; apply Hl; by right).
    destruct (counted a) eqn:Ha.
    + rewrite filter_cons_True by done.
      change (Spec.Zsum (charge m <$> a :: ?t)) with (charge m a + Spec.Zsum (charge m <$> t)).
      pose proof (counted_ok a r Hr Ha) as Hsev.
      destruct (severity_digit_Atoi _ Hsev) as (_ & _ & Hd).
      rewrite (index_lookup m a r Hr), mdScore_ok by (try done; lia).
      rewrite IH by (try done; lia).
      unfold charge at 2. rewrite (index_lookup m a r Hr). lia.
    + rewrite filter_cons_False by congruence.
      rewrite IH by (try done; lia). done.
Qed.

End MarkdownScore.

Lemma length_codes_le (m : FindingSet) (l : list string) :
  NoDup l -> (forall k, k ∈ l -> is_Some (m !! k)) -> (length l <= size m)%nat.
Proof.
  intros Hnd Hl. rewrite <- length_map_to_list, <- (length_fmap fst).
  apply submseteq_length, NoDup_submseteq; [done|].
  intros k [r Hr]%Hl. apply list_elem_of_fmap. exists (k, r).
  split; [done | by apply elem_of_map_to_list].
Qed.

(** The sum of the charges over a list that holds each code of [m'] once. *)
Lemma penalty_of_codes (m m' : FindingSet) (l : list string) :
  m' ⊆ m -> NoDup l -> (forall k, k ∈ l <-> is_Some (m' !! k)) ->
  Spec.Zsum (charge m <$> l) = Spec.penalty m'.
Proof.
  intros Hsub Hnd Hl. unfold Spec.penalty.
  assert (Hp : l ≡ₚ (map_to_list m').*1).
  { apply NoDup_Permutation; [done | apply NoDup_fst_map_to_list|].
    intros k. rewrite Hl, list_elem_of_fmap. split.
    - intros [r Hr]. exists (k, r). split; [done | by apply elem_of_map_to_list].
    - intros ([k' r] & -> & Hin). apply elem_of_map_to_list in Hin. by exists r. }
  rewrite (Zsum_Permutation _ (charge m <$> (map_to_list m').*1)) by (by apply fmap_Permutation).
  f_equal. rewrite <- list_fmap_compose. apply list_fmap_ext.
  intros i [k r] Hi. apply list_elem_of_lookup_2, elem_of_map_to_list in Hi.
  simpl. unfold charge. by rewrite (index_lookup m k r (lookup_weaken _ _ _ _ Hi Hsub)).
Qed.

Lemma md_index_score (format : string) (st : Locals) :
  score (md_index format st) =
  foldl (fun s item => mdScore (Severity (index (suggest st) item)) s) (score st)
        (sort_Strings (collect (suggest st) is_IDX)).
Proof.
  unfold md_index. cbv zeta.
  by apply (score_foldl _ (fun m item s => mdScore (Severity (index m item)) s)).
Qed.

Lemma md_heuristic_score (st : Locals) :
  score (md_heuristic st) =
  foldl (fun s item =>
           if String.eqb item "OK" then s else mdScore (Severity (index (suggest st) item)) s)
        (score st)
        (sort_Strings (collect (suggest st)
           (fun item => negb (is_EXP item) && negb (is_IDX item) && negb (is_PRO item)))).
Proof.
  unfold md_heuristic. cbv zeta.
  apply (score_foldl _ (fun m item s =>
           if String.eqb item "OK" then s else mdScore (Severity (index m item)) s)).
  - intros st' item. by case_match.
  - intros st' item. by case_match.
Qed.

Lemma foldl_ext_elem {A B : Type} (f g : A -> B -> A) (l : list B) (a : A) :
  (forall a b, b ∈ l -> f a b = g a b) -> foldl f a l = foldl g a l.
Proof.
  revert a. induction l as [|b l IH]; intros a H; [done|].
  cbn [foldl]. rewrite (H a b) by (by left). apply IH.
  intros a' b' Hb'. apply H. by right.
Qed.

Lemma is_IDX_not_EXP (k : string) : is_IDX k = true -> is_EXP k = false.
Proof. unfold is_IDX, is_EXP. intros [rest ->]%HasPrefix_spec. reflexivity. Qed.

Lemma is_IDX_not_PRO (k : string) : is_IDX k = true -> is_PRO k = false.
Proof. unfold is_IDX, is_PRO. intros [rest ->]%HasPrefix_spec. reflexivity. Qed.

Lemma is_IDX_not_TRA (k : string) : is_IDX k = true -> is_TRA k = false.
Proof. unfold is_IDX, is_TRA. intros [rest ->]%HasPrefix_spec. reflexivity. Qed.

Lemma is_IDX_not_OK (k : string) : is_IDX k = true -> String.eqb k "OK" = false.
Proof. unfold is_IDX. intros [rest ->]%HasPrefix_spec. reflexivity. Qed.

Lemma md_scored_kept (k : string) (r : Rule) : md_scored k = true -> md_kept k r = true.
Proof.
  unfold md_scored, md_kept.
  destruct (String.eqb k "EXP.000") eqn:He.
  { apply String.eqb_eq in He. subst k. done. }
  by destruct (is_ERR k), (is_PRO k), (is_TRA k), (is_EXP k).
Qed.

(** The codes the Index and the Heuristic block charge are the scored ones. *)
Lemma md_charged_codes (m : FindingSet) (k : string) (r : Rule) :
  m !! k = Some r -> md_kept k r = true ->
  (is_IDX k = true -> md_scored k = true) /\
  (negb (is_EXP k) && negb (is_IDX k) && negb (is_PRO k) = true ->
   md_scored k = negb (String.eqb k "OK")).
Proof.
  intros _ Hk. unfold md_kept in Hk. unfold md_scored.
  destruct (is_ERR k), (is_PRO k) eqn:Hp, (is_TRA k) eqn:Ht; try done. simpl. split.
  - intros Hi. by rewrite (is_IDX_not_EXP k Hi), (is_IDX_not_OK k Hi).
  - destruct (is_EXP k); [done|]. by destruct (is_IDX k).
Qed.

Lemma md_body_score (format : string) (st : Locals) :
  (forall k r, suggest st !! k = Some r -> md_scored k = true ->
               Spec.is_severity (Severity r) = true) ->
  Z.of_nat (size (suggest st)) < 2 ^ 56 ->
  0 <= score st <= 100 ->
  score (md_body format st) =
  (if has_failure (suggest st) then 0 else score st)
  - Spec.penalty (filter (fun kr : string * Rule => md_scored kr.1 = true) (suggest st)).
Proof.
  intros Hsev Hsize Hscore. unfold md_body.
  set (st1 := md_trace (md_profiling (md_explain (md_mysql st)))).
  assert (Hm1 : suggest st1 = filter (fun kr : string * Rule => md_kept kr.1 kr.2 = true) (suggest st)).
  { rewrite <- (md_body_suggest_eq format). unfold md_body.
    by rewrite md_heuristic_suggest, md_index_suggest. }
  assert (Hs1 : score st1 = if has_failure (suggest st) then 0 else score st).
  { unfold st1, md_trace, md_profiling. by rewrite !md_dump_score, md_explain_score, md_mysql_score. }
  rewrite md_heuristic_score, md_index_suggest, md_index_score.
  set (m1 := suggest st1) in *.
  set (l1 := sort_Strings (collect m1 is_IDX)).
  set (l2 := sort_Strings (collect m1 _)).
  destruct (sorted_collect_codes m1 is_IDX) as (_ & Hnd1 & Hl1). fold l1 in Hnd1, Hl1.
  destruct (sorted_collect_codes m1
    (fun item => negb (is_EXP item) && negb (is_IDX item) && negb (is_PRO item)))
    as (_ & Hnd2 & Hl2). fold l2 in Hnd2, Hl2.
  assert (Hlk : forall k r, m1 !! k = Some r <-> suggest st !! k = Some r /\ md_kept k r = true).
  { intros k r. rewrite Hm1, map_lookup_filter_Some. done. }
  assert (Hin : forall k, k ∈ l1 ++ l2 -> is_Some (m1 !! k)).
  { intros k [Hk|Hk]%elem_of_app; [by apply Hl1 in Hk as [? _] | by apply Hl2 in Hk as [? _]]. }
  assert (Hnd : NoDup (l1 ++ l2)).
  { apply NoDup_app. split; [done|]. split; [|done].
    intros k [_ Hi]%Hl1 [_ Hn]%Hl2. rewrite Hi in Hn. by destruct (is_EXP k). }
  rewrite (foldl_ext_elem _
    (fun s item => if md_scored item then mdScore (Severity (index m1 item)) s else s) l2).
  2:{ intros s k Hk.
      apply Hl2 in Hk as [[r Hr] Hi]. pose proof Hr as [Hr0 Hkept]%Hlk.
      destruct (md_charged_codes _ k r Hr0 Hkept) as [_ H2]. rewrite (H2 Hi).
      by destruct (String.eqb k "OK"). }
  rewrite (foldl_ext_elem _
    (fun s item => if md_scored item then mdScore (Severity (index m1 item)) s else s) l1).
  2:{ intros s k Hk.
      apply Hl1 in Hk as [[r Hr] Hi]. pose proof Hr as [Hr0 Hkept]%Hlk.
      destruct (md_charged_codes _ k r Hr0 Hkept) as [H1 _]. by rewrite (H1 Hi). }
  rewrite <- foldl_app.
  assert (Hlen : (length (l1 ++ l2) <= size (suggest st))%nat).
  { apply length_codes_le; [done|]. intros k [r Hr]%Hin. apply Hlk in Hr as [Hr _]. by eexists. }
  rewrite (mdScore_fold m1 md_scored).
  - rewrite Hs1. f_equal. apply penalty_of_codes.
    + rewrite Hm1. intros k. rewrite !map_lookup_filter.
      destruct (suggest st !! k) as [r|]; simpl; [|done].
      destruct (md_scored k) eqn:Hsc.
      * rewrite (md_scored_kept k r Hsc). rewrite !option_guard_True by done. done.
      * rewrite (option_guard_False (false = true)) by done. simpl.
        by destruct (guard (md_kept k r = true)).
    + by apply NoDup_filter.
    + intros k. rewrite list_elem_of_filter. split.
      * intros [Hsc [r Hr]%Hin]. apply Hlk in Hr as [Hr _]. exists r.
        by apply map_lookup_filter_Some.
      * intros [r [Hr Hsc]%map_lookup_filter_Some]. simpl in Hsc. split; [done|].
        pose proof (md_scored_kept k r Hsc) as Hkept.
        assert (Hr1 : is_Some (m1 !! k)) by (exists r; by apply Hlk).
        apply elem_of_app. destruct (is_IDX k) eqn:Hi.
        -- left. by apply Hl1.
        -- right. apply Hl2. split; [done|]. rewrite Hi. unfold md_scored in Hsc.
           by destruct (is_ERR k), (is_EXP k), (is_PRO k).
  - intros k r [Hr _]%Hlk Hsc. by apply (Hsev k r).
  - done.
  - lia.
  - rewrite Hs1. destruct (has_failure (suggest st)); lia.
Qed.

Lemma md_header_score (sql id fingerprint format : string) (st : Locals) :
  score (md_header sql id fingerprint format st) = score st.
Proof. unfold md_header. by case_match. Qed.

(** X13.  The score of a markdown-family report: 100, or 0 when a MySQL
    failure (an ERR code with a message) is among the findings, minus five
    times the severity digit of every finding that is not an ERR, EXP, PRO
    or TRA code and not the OK sentinel, provided these carry a severity of
    the form L0..L9. *)
Theorem FormatSuggest_markdown_score (sql currentDB format : string)
    (suggests : list FindingSet) :
  let kept := filter_suggest (MergeConflictHeuristicRules (merge_suggests suggests)) in
  is_markdown_family format = true ->
  (forall k r, kept !! k = Some r -> md_scored k = true ->
               Spec.is_severity (Severity r) = true) ->
  Z.of_nat (size kept) < 2 ^ 56 ->
  score (FormatSuggest_locals sql currentDB format suggests) =
  (if has_failure kept then 0 else 100)
  - Spec.penalty (filter (fun kr : string * Rule => md_scored kr.1 = true) kept).
Proof.
  cbv zeta. intros Hf Hsev Hsize. unfold FormatSuggest_locals. cbv zeta.
  destruct (String.eqb format "json") eqn:Hj.
  { apply String.eqb_eq in Hj. subst format. done. }
  destruct (String.eqb format "text") eqn:Ht.
  { apply String.eqb_eq in Ht. subst format. done. }
  destruct (String.eqb format "lint") eqn:Hl.
  { apply String.eqb_eq in Hl. subst format. done. }
  rewrite Hf. unfold format_markdown.
  rewrite md_body_score; rewrite ?md_header_suggest, ?md_header_score; simpl; try done; lia.
Qed.

End Advisor.

(** ** Independence of the map order

    Two runs of the formatter differ in nothing but the orders in which the
    runtime walks the maps. *)

Section MapOrder.

Variable cfg : Config.
Variable ext : Collaborators.
Variables rule_content rule_case : string -> string.
Variable MergeConflictHeuristicRules : FindingSet -> FindingSet.
Variables order1 order2 : FindingSet -> list string.

Hypothesis order1_perm : forall m : FindingSet, order1 m ≡ₚ (map_to_list m).*1.
Hypothesis order2_perm : forall m : FindingSet, order2 m ≡ₚ (map_to_list m).*1.

Lemma collect_NoDup (order : FindingSet -> list string) (m : FindingSet) (P : string -> bool) :
  (forall m : FindingSet, order m ≡ₚ (map_to_list m).*1) -> NoDup (collect order m P).
Proof. intros Hp. rewrite collect_eq. by apply NoDup_filter, NoDup_range_order. Qed.

Lemma sorted_collect_order (m : FindingSet) (P : string -> bool) :
  sort_Strings (collect order1 m P) = sort_Strings (collect order2 m P).
Proof.
  apply sort_Strings_Permutation, NoDup_Permutation; try by apply collect_NoDup.
  intros k. rewrite !elem_of_collect, !elem_of_range_order; done.
Qed.

Lemma md_mysql_order (st : Locals) : md_mysql order1 st = md_mysql order2 st.
Proof.
  unfold md_mysql.
  rewrite !md_mysql_scan_map by done.
  assert (Hs : sort_Strings (md_mysql_scan order1 (suggest st)).2 =
               sort_Strings (md_mysql_scan order2 (suggest st)).2).
  { apply sort_Strings_Permutation, NoDup_Permutation; try by apply md_mysql_scan_NoDup.
    intros k. by rewrite !md_mysql_scan_failures. }
  by rewrite Hs.
Qed.

Lemma md_explain_order (st : Locals) : md_explain order1 st = md_explain order2 st.
Proof. unfold md_explain. cbv zeta. by rewrite sorted_collect_order. Qed.

Lemma md_dump_order (P : string -> bool) (title : string) (st : Locals) :
  md_dump order1 P title st = md_dump order2 P title st.
Proof. unfold md_dump. cbv zeta. by rewrite sorted_collect_order. Qed.

Lemma md_index_order (format : string) (st : Locals) :
  md_index ext order1 format st = md_index ext order2 format st.
Proof. unfold md_index. cbv zeta. by rewrite sorted_collect_order. Qed.

Lemma md_heuristic_order (st : Locals) :
  md_heuristic ext order1 st = md_heuristic ext order2 st.
Proof. unfold md_heuristic. cbv zeta. by rewrite sorted_collect_order. Qed.

Lemma md_body_order (format : string) (st : Locals) :
  md_body ext order1 format st = md_body ext order2 format st.
Proof.
  unfold md_body, md_trace, md_profiling.
  by rewrite md_mysql_order, md_explain_order, !md_dump_order, md_index_order,
    md_heuristic_order.
Qed.

Lemma filter_suggest_order (suggests : list FindingSet) :
  filter_suggest cfg rule_content rule_case order1
    (MergeConflictHeuristicRules (merge_suggests order1 suggests)) =
  filter_suggest cfg rule_content rule_case order2
    (MergeConflictHeuristicRules (merge_suggests order2 suggests)).
Proof.
  unfold filter_suggest. by rewrite !merge_suggests_eq, !drop_ignored_eq.
Qed.

(** X1.  In the markdown family the finding set and the string that
    [FormatSuggest] returns do not depend on the order in which the maps are
    walked. *)
Theorem FormatSuggest_markdown_order (sql currentDB format : string)
    (suggests : list FindingSet) :
  is_markdown_family format = true ->
  FormatSuggest cfg ext rule_content rule_case MergeConflictHeuristicRules order1
    sql currentDB format suggests =
  FormatSuggest cfg ext rule_content rule_case MergeConflictHeuristicRules order2
    sql currentDB format suggests.
Proof.
  intros Hf. unfold FormatSuggest, FormatSuggest_locals.
  destruct (String.eqb format "json") eqn:Hj.
  { apply String.eqb_eq in Hj. subst format. done. }
  destruct (String.eqb format "text") eqn:Ht.
  { apply String.eqb_eq in Ht. subst format. done. }
  destruct (String.eqb format "lint") eqn:Hl.
  { apply String.eqb_eq in Hl. subst format. done. }
  rewrite filter_suggest_order, Hf. unfold format_markdown.
  by rewrite md_body_order.
Qed.

(** X2.  On severities [L0] ... [L9] the json document does not depend on
    the order in which the map is walked either. *)
Theorem formatJSON_order (sql db : string) (m : FindingSet) :
  (forall k r, m !! k = Some r -> Spec.is_severity (Severity r) = true) ->
  Z.of_nat (size m) < 2 ^ 56 ->
  formatJSON ext order1 sql db m = formatJSON ext order2 sql db m.
Proof.
  intros Hsev Hsize. unfold formatJSON, formatJSON_sug.
  rewrite !(sorted_collect_order m), !jsonScore_value by done.
  assert (He : existsb (fun k => is_failure k (index m k)) (order1 m) =
               existsb (fun k => is_failure k (index m k)) (order2 m)).
  { apply eq_true_iff_eq. by rewrite !has_failure_range_order. }
  by rewrite He.
Qed.

End MapOrder.

(** ** The properties at concrete inputs *)

Import Samples.

Lemma order_fwd_perm (m : FindingSet) : order_fwd m ≡ₚ (map_to_list m).*1.
Proof. reflexivity. Qed.

Lemma order_rev_perm (m : FindingSet) : order_rev m ≡ₚ (map_to_list m).*1.
Proof. unfold order_rev. symmetry. apply Permutation_rev. Qed.

(** C2.  The lint report of one and the same input under two map orders the
    runtime may choose: the returned finding set is the same, the rendered
    lines come in different order. *)
Theorem lint_report_follows_map_order :
  (FormatSuggest cfg_plain ext no_text no_text no_conflict order_fwd
     "select 1" "" "lint" [two_findings]).2
  = "CLA.001 Outermost SELECT Unspecified WHERE condition" +:+ fmt.nl +:+
    "ALI.001 It is recommended to declare an alias using the AS keyword display" /\
  (FormatSuggest cfg_plain ext no_text no_text no_conflict order_rev
     "select 1" "" "lint" [two_findings]).2
  = "ALI.001 It is recommended to declare an alias using the AS keyword display" +:+ fmt.nl +:+
    "CLA.001 Outermost SELECT Unspecified WHERE condition" /\
  (FormatSuggest cfg_plain ext no_text no_text no_conflict order_fwd
     "select 1" "" "lint" [two_findings]).1
  = (FormatSuggest cfg_plain ext no_text no_text no_conflict order_rev
     "select 1" "" "lint" [two_findings]).1.
Proof. repeat split; vm_compute; reflexivity. Qed.

(** The text report behaves alike: its blocks follow the map order. *)
Lemma text_report_follows_map_order :
  (FormatSuggest cfg_plain ext no_text no_text no_conflict order_fwd
     "select 1" "" "text" [two_findings]).2
  = strings.Join
      [fmt.Sprintln "Query: " "select 1"; fmt.Sprintln "ID: " "select 1";
       fmt.Sprintln "Item: " "CLA.001"; fmt.Sprintln "Severity: " "L4";
       fmt.Sprintln "Summary: " "Outermost SELECT Unspecified WHERE condition";
       fmt.Sprintln "Content: " "c2";
       fmt.Sprintln "Query: " "select 1"; fmt.Sprintln "ID: " "select 1";
       fmt.Sprintln "Item: " "ALI.001"; fmt.Sprintln "Severity: " "L0";
       fmt.Sprintln "Summary: " "It is recommended to declare an alias using the AS keyword display";
       fmt.Sprintln "Content: " "c1"] fmt.nl /\
  (FormatSuggest cfg_plain ext no_text no_text no_conflict order_rev
     "select 1" "" "text" [two_findings]).2
  = strings.Join
      [fmt.Sprintln "Query: " "select 1"; fmt.Sprintln "ID: " "select 1";
       fmt.Sprintln "Item: " "ALI.001"; fmt.Sprintln "Severity: " "L0";
       fmt.Sprintln "Summary: " "It is recommended to declare an alias using the AS keyword display";
       fmt.Sprintln "Content: " "c1";
       fmt.Sprintln "Query: " "select 1"; fmt.Sprintln "ID: " "select 1";
       fmt.Sprintln "Item: " "CLA.001"; fmt.Sprintln "Severity: " "L4";
       fmt.Sprintln "Summary: " "Outermost SELECT Unspecified WHERE condition";
       fmt.Sprintln "Content: " "c2"] fmt.nl.
Proof. split; vm_compute; reflexivity. Qed.

(** With a severity that reads as a negative number the json score follows
    the map order as well. *)
Lemma json_score_follows_map_order :
  js_Score (formatJSON_sug ext order_fwd "select 1" ""
              {["ALI.001" := ALI_001_negative; "ERR.001" := ERR_001]}) = 5 /\
  js_Score (formatJSON_sug ext order_rev "select 1" ""
              {["ALI.001" := ALI_001_negative; "ERR.001" := ERR_001]}) = 0.
Proof. split; vm_compute; reflexivity. Qed.

Lemma FormatSuggest_markdown_order_witness :
  FormatSuggest cfg_markdown ext no_text no_text no_conflict order_fwd
    "select 1" "" "markdown" [mixed_findings] =
  FormatSuggest cfg_markdown ext no_text no_text no_conflict order_rev
    "select 1" "" "markdown" [mixed_findings].
Proof.
  apply (FormatSuggest_markdown_order cfg_markdown ext no_text no_text no_conflict
           order_fwd order_rev order_fwd_perm order_rev_perm).
  reflexivity.
Defined.

Lemma formatJSON_order_witness :
  formatJSON ext order_fwd "select 1" "" two_findings =
  formatJSON ext order_rev "select 1" "" two_findings.
Proof.
  apply (formatJSON_order ext order_fwd order_rev order_fwd_perm order_rev_perm).
  - intros k r Hk.
    assert (H : map_Forall (fun _ r => Spec.is_severity (Severity r) = true) two_findings).
    { apply (bool_decide_unpack _). vm_compute. exact I. }
    apply (H k r Hk).
  - vm_compute. reflexivity.
Defined.

(** C3, as stated, fails: with the bare token OK in the ignore list a
    finding set whose only member is OK comes back empty. *)
Lemma ignore_OK_removes_only_member :
  FormatSuggest cfg_ignore_OK ext no_text no_text no_conflict order_fwd
    "select 1" "" "text" [{["OK" := OK_rule]}]
  = (∅, EmptyString).
Proof. vm_compute. reflexivity. Qed.

Lemma FormatSuggest_ignore_OK_witness :
  ("OK" ∉ dom (FormatSuggest cfg_ignore_OK ext no_text no_text no_conflict order_fwd
                 "select 1" "" "json" [{["OK" := OK_rule]}]).1) /\
  ("OK" ∉ dom (FormatSuggest cfg_plain ext no_text no_text no_conflict order_fwd
                 "select 1" "" "json" [two_findings; {["OK" := OK_rule]}]).1) /\
  dom (FormatSuggest cfg_plain ext no_text no_text no_conflict order_fwd
         "select 1" "" "markdown" [{["OK" := OK_rule]}]).1 = {["OK"]}.
Proof.
  split; [|split].
  - pose proof (FormatSuggest_ignore_OK cfg_ignore_OK ext no_text no_text no_conflict
                  order_fwd "select 1" "" "json" [{["OK" := OK_rule]}]) as H.
    cbv zeta in H. destruct H as (H & _ & _). apply H.
    vm_compute. by left.
  - pose proof (FormatSuggest_ignore_OK cfg_plain ext no_text no_text no_conflict
                  order_fwd "select 1" "" "json" [two_findings; {["OK" := OK_rule]}]) as H.
    cbv zeta in H. destruct H as (_ & H & _). apply H.
    apply Nat.ltb_lt. vm_compute. reflexivity.
  - pose proof (FormatSuggest_ignore_OK cfg_plain ext no_text no_text no_conflict
                  order_fwd "select 1" "" "markdown" [{["OK" := OK_rule]}]) as H.
    cbv zeta in H. destruct H as (_ & _ & H). apply H.
    + vm_compute. apply not_elem_of_nil.
    + reflexivity.
    + vm_compute. reflexivity.
Defined.

(** C4, as stated, fails: a pattern with a leading [*] is stripped at both
    ends by the code, at the end only by the specification's words. *)
Lemma IsIgnoreRule_strips_leading_star :
  IsIgnoreRule cfg_star_ALI "ALI.001" = true /\
  Spec.is_ignored (IgnoreRules cfg_star_ALI) "ALI.001" = false.
Proof. split; reflexivity. Qed.

(** C5, as stated, fails: the entry [x*] matches every statement (with the
    empty match), and [InBlackList] does not count an empty match. *)
Lemma InBlackList_skips_empty_match :
  InBlackList cfg_blacklist MiniRE.engine "select 1" = false /\
  Spec.in_blacklist MiniRE.engine (BlackList cfg_blacklist) "select 1" = true.
Proof. split; reflexivity. Qed.

(** C6, as stated, fails: a severity that reads as a negative number lifts
    the json score above 100. *)
Lemma formatJSON_score_above_100 :
  js_Score (formatJSON_sug ext order_fwd "select 1" "" {["ALI.001" := ALI_001_negative]}) = 105.
Proof. vm_compute. reflexivity. Qed.

Lemma formatJSON_score_witness :
  js_Score (formatJSON_sug ext order_fwd "select 1" "" two_findings) = 80 /\
  js_Score (formatJSON_sug ext order_fwd "select 1" "" mixed_findings) = 0.
Proof.
  assert (H2 : map_Forall (fun _ r => Spec.is_severity (Severity r) = true) two_findings).
  { apply (bool_decide_unpack _). vm_compute. exact I. }
  assert (H6 : map_Forall (fun _ r => Spec.is_severity (Severity r) = true) mixed_findings).
  { apply (bool_decide_unpack _). vm_compute. exact I. }
  assert (HE : map_Forall (fun k r => is_ERR k = true -> Content r = "") two_findings).
  { apply (bool_decide_unpack _). vm_compute. exact I. }
  split.
  - destruct (formatJSON_score ext order_fwd order_fwd_perm "select 1" "" two_findings)
      as (_ & _ & Hsum).
    { intros k r Hk. apply (H2 k r Hk). }
    { vm_compute. reflexivity. }
    rewrite Hsum; [vm_compute; reflexivity|].
    intros k r Hk. apply (HE k r Hk).
  - destruct (formatJSON_score ext order_fwd order_fwd_perm "select 1" "" mixed_findings)
      as (_ & Hzero & _).
    { intros k r Hk. apply (H6 k r Hk). }
    { vm_compute. reflexivity. }
    apply Hzero. exists "ERR.001", ERR_001.
    split; [vm_compute; reflexivity | split; [reflexivity | discriminate]].
Defined.

(** C7.  A finding whose severity does not parse: the markdown report sets
    the score to 0, the json report leaves it at 100. *)
Theorem unparsable_severity_score :
  js_Score (formatJSON_sug ext order_fwd "select 1" "" {["ALI.001" := ALI_001_unparsable]}) = 100 /\
  score (FormatSuggest_locals cfg_markdown ext no_text no_text no_conflict order_fwd
           "select 1" "" "markdown" [{["ALI.001" := ALI_001_unparsable]}]) = 0.
Proof. split; vm_compute; reflexivity. Qed.

(** C8, as stated, fails: the lint report shows a placeholder, and returns
    it. *)
Lemma lint_report_shows_placeholder :
  FormatSuggest cfg_plain ext no_text no_text no_conflict order_fwd
    "select 1" "" "lint" [{["ERR.002" := ERR_002_placeholder]}]
  = ({["ERR.002" := ERR_002_placeholder]}, "ERR.002 MySQL execute failed").
Proof. vm_compute. reflexivity. Qed.

(** The json report leaves a placeholder out of its arrays and still takes
    its severity off the score. *)
Lemma formatJSON_counts_placeholder :
  js_Score (formatJSON_sug ext order_fwd "select 1" "" {["ERR.002" := ERR_002_placeholder]}) = 60 /\
  js_HeuristicRules (formatJSON_sug ext order_fwd "select 1" "" {["ERR.002" := ERR_002_placeholder]}) = [].
Proof. split; vm_compute; reflexivity. Qed.

Lemma placeholders_dropped_witness :
  md_body ext order_fwd "markdown" (mkLocals mixed_findings [] 100) =
  md_body ext order_fwd "markdown" (mkLocals (delete "ERR.002" mixed_findings) [] 100).
Proof.
  destruct (placeholders_dropped cfg_markdown ext no_text no_text no_conflict order_fwd
              order_fwd_perm "select 1" "" "markdown"
              (mkLocals mixed_findings [] 100) mixed_findings [mixed_findings]) as [-> _].
  vm_compute. reflexivity.
Defined.

Lemma FormatSuggest_markdown_deletes_witness :
  (FormatSuggest cfg_markdown ext no_text no_text no_conflict order_fwd
     "select 1" "" "markdown" [mixed_findings]).1
  = {["ALI.001" := ALI_001; "CLA.001" := CLA_001]} /\
  is_failure "CLA.001" CLA_001 = false /\ is_PRO "CLA.001" = false /\ is_TRA "CLA.001" = false.
Proof.
  split; [vm_compute; reflexivity|].
  apply (FormatSuggest_markdown_deletes cfg_markdown ext no_text no_text no_conflict order_fwd
           order_fwd_perm "select 1" "" "markdown" [mixed_findings] "CLA.001" CLA_001).
  - reflexivity.
  - vm_compute. reflexivity.
Defined.

(** ** A longer ignore list *)

Section IgnoreList.

Variables cfg cfg' : Config.
Variable ext : Collaborators.
Variables rule_content rule_case : string -> string.
Variable MergeConflictHeuristicRules : FindingSet -> FindingSet.
Variable range_order : FindingSet -> list string.

Hypothesis range_order_perm : forall m, range_order m ≡ₚ (map_to_list m).*1.
Hypothesis more_ignored : forall ir, ir ∈ IgnoreRules cfg -> ir ∈ IgnoreRules cfg'.

Lemma IsIgnoreRule_more (item : string) :
  IsIgnoreRule cfg item = true -> IsIgnoreRule cfg' item = true.
Proof.
  unfold IsIgnoreRule. rewrite !IsIgnoreRule_loop_iff.
  intros (ir & Hin & H). exists ir. split; [by apply more_ignored | done].
Qed.

Lemma drop_OK_more (m : FindingSet) : drop_OK cfg' m ⊆ drop_OK cfg m.
Proof.
  unfold drop_OK.
  destruct (ignoreOK cfg) eqn:Hi.
  - apply ignoreOK_iff, more_ignored, ignoreOK_iff in Hi. by rewrite Hi.
  - simpl. destruct (1 <? size m)%nat.
    + by rewrite orb_true_r.
    + rewrite orb_false_r. destruct (ignoreOK cfg'); [apply delete_subseteq | done].
Qed.

Lemma filter_suggest_more (m : FindingSet) :
  filter_suggest cfg' rule_content rule_case range_order m ⊆
  filter_suggest cfg rule_content rule_case range_order m.
Proof.
  unfold filter_suggest. rewrite !drop_ignored_eq by done.
  apply map_subseteq_spec. intros k r [Hk Hi]%map_lookup_filter_Some.
  apply map_lookup_filter_Some. split.
  - by apply (lookup_weaken _ _ _ _ Hk), drop_OK_more.
  - simpl in *. destruct (IsIgnoreRule cfg k) eqn:Hc; [|done].
    apply IsIgnoreRule_more in Hc. congruence.
Qed.

(** X14.  Adding entries to the ignore list never adds a finding: what
    [FormatSuggest] returns under the longer list is part of what it returns
    under the shorter one, in every format. *)
Theorem FormatSuggest_ignore_monotone (sql currentDB format : string)
    (suggests : list FindingSet) :
  (FormatSuggest cfg' ext rule_content rule_case MergeConflictHeuristicRules range_order
     sql currentDB format suggests).1 ⊆
  (FormatSuggest cfg ext rule_content rule_case MergeConflictHeuristicRules range_order
     sql currentDB format suggests).1.
Proof.
  rewrite !FormatSuggest_returned_eq by done. cbv zeta.
  destruct (is_markdown_family format).
  - apply map_filter_subseteq_mono, filter_suggest_more.
  - apply filter_suggest_more.
Qed.

End IgnoreList.

(** ** The returned finding set, code by code *)

Section Returned.

Variable cfg : Config.
Variable ext : Collaborators.
Variables rule_content rule_case : string -> string.
Variable MergeConflictHeuristicRules : FindingSet -> FindingSet.
Variable range_order : FindingSet -> list string.

Hypothesis range_order_perm : forall m, range_order m ≡ₚ (map_to_list m).*1.

(** The default and the OK step. *)
Lemma drop_OK_ensure_OK_lookup (m : FindingSet) (k : string) (r : Rule) :
  drop_OK cfg (ensure_OK rule_content rule_case m) !! k = Some r <->
  (m = ∅ /\ k = "OK" /\ r = mkRule "OK" "L0" "OK" "OK" "OK" 0 /\ "OK" ∉ IgnoreRules cfg) \/
  (m !! k = Some r /\ (k = "OK" -> ("OK" ∉ IgnoreRules cfg) /\ size m = 1%nat)).
Proof.
  unfold ensure_OK. destruct (size m <? 1)%nat eqn:Hsz.
  - apply Nat.ltb_lt in Hsz. assert (Hm : m = ∅) by (apply map_size_empty_iff; lia).
    subst m. rewrite HeuristicRules_OK. unfold drop_OK.
    rewrite map_size_singleton. change (1 <? 1)%nat with false. rewrite orb_false_r.
    destruct (ignoreOK cfg) eqn:Hi.
    + rewrite delete_singleton, lookup_empty. split; [done|].
      intros [(_ & _ & _ & Hn)|[Hk _]]; [|done].
      exfalso. by apply Hn, ignoreOK_iff.
    + rewrite lookup_singleton_Some. split.
      * intros [<- <-]. left. repeat split; try done.
        intros Hin%ignoreOK_iff. congruence.
      * intros [(_ & -> & -> & _)|[Hk _]]; [done | by rewrite lookup_empty in Hk].
  - apply Nat.ltb_ge in Hsz. unfold drop_OK.
    assert (Hne : m <> ∅).
    { intros ->. rewrite map_size_empty in Hsz. lia. }
    destruct (ignoreOK cfg || (1 <? size m)%nat) eqn:Hc.
    + rewrite lookup_delete_Some. split.
      * intros [Hk Hr]. right. split; [done|]. intros ->. done.
      * intros [(Hm & _)|[Hr Hok]]; [done|]. split; [|done].
        intros <-. destruct (Hok eq_refl) as [Hn Hs].
        apply orb_true_iff in Hc as [Hc%ignoreOK_iff|Hc%Nat.ltb_lt]; [done | lia].
    + apply orb_false_elim in Hc as [Hi Hc%Nat.ltb_ge]. split.
      * intros Hr. right. split; [done|]. intros _. split; [|lia].
        intros Hin%ignoreOK_iff. congruence.
      * intros [(Hm & _)|[Hr _]]; done.
Qed.

(** X15.  What [FormatSuggest] returns, code by code: a finding of the
    merged set that no ignore pattern covers and, in the markdown family,
    that the report has not consumed; the code OK only when it is the merged
    set's single member and the bare token OK is not in the ignore list; and
    the catalog's OK rule when the merged set is empty. *)
Theorem FormatSuggest_returned_lookup (sql currentDB format : string)
    (suggests : list FindingSet) (k : string) (r : Rule) :
  let merged := MergeConflictHeuristicRules (merge_suggests range_order suggests) in
  (FormatSuggest cfg ext rule_content rule_case MergeConflictHeuristicRules range_order
     sql currentDB format suggests).1 !! k = Some r <->
  IsIgnoreRule cfg k = false /\
  (is_markdown_family format = true -> md_kept k r = true) /\
  ((merged = ∅ /\ k = "OK" /\ r = mkRule "OK" "L0" "OK" "OK" "OK" 0 /\
    "OK" ∉ IgnoreRules cfg) \/
   (merged !! k = Some r /\ (k = "OK" -> ("OK" ∉ IgnoreRules cfg) /\ size merged = 1%nat))).
Proof.
  cbv zeta. rewrite FormatSuggest_returned_eq by done. cbv zeta.
  unfold filter_suggest. rewrite drop_ignored_eq by done.
  destruct (is_markdown_family format).
  - rewrite !map_lookup_filter_Some, drop_OK_ensure_OK_lookup. simpl. split.
    + intros [[H Hi] Hk]. done.
    + intros (Hi & Hk & H). split; [done | by apply Hk].
  - rewrite map_lookup_filter_Some, drop_OK_ensure_OK_lookup. simpl. split.
    + intros [H Hi]. done.
    + intros (Hi & _ & H). done.
Qed.

End Returned.

(** ** The further properties at concrete inputs *)

Lemma IsIgnoreRule_extends_witness :
  IsIgnoreRule cfg_star_ALI ("ALI" +:+ ".001") = true.
Proof. apply (IsIgnoreRule_extends cfg_star_ALI "ALI" ".001"). reflexivity. Defined.

Lemma IsIgnoreRule_star_insensitive_witness :
  IsIgnoreRule_loop ["*ALI"; "CLA*"] "CLA.001" = IsIgnoreRule_loop ["ALI"; "CLA"] "CLA.001".
Proof.
  apply (IsIgnoreRule_star_insensitive ["ALI"; "CLA"] ["*ALI"; "CLA*"] "CLA.001").
  constructor; [right; left; reflexivity|].
  constructor; [left; reflexivity|].
  constructor.
Defined.

Lemma MiniRE_find_empty (rx : MiniRE.regexp) (m : string) :
  MiniRE.find rx "" = Some m -> m = "".
Proof.
  cbn [MiniRE.find]. destruct (MiniRE.match_here _ _ _) as [rest|]; [|done].
  intros [= <-]. by destruct (String.length "" - String.length rest)%nat.
Qed.

Lemma InBlackList_empty_sql_witness :
  InBlackList cfg_blacklist MiniRE.engine "" = true <-> "" ∈ BlackList cfg_blacklist.
Proof. apply (InBlackList_empty_sql cfg_blacklist MiniRE.engine). exact MiniRE_find_empty. Defined.

Lemma FormatSuggest_returns_no_ignored_witness :
  IsIgnoreRule cfg_star_ALI "CLA.001" = false.
Proof.
  apply (FormatSuggest_returns_no_ignored cfg_star_ALI ext no_text no_text no_conflict
           order_fwd order_fwd_perm "select 1" "" "text" [two_findings] "CLA.001").
  apply elem_of_dom. exists CLA_001. vm_compute. reflexivity.
Defined.

Lemma FormatSuggest_markdown_returned_witness :
  (FormatSuggest cfg_markdown ext no_text no_text no_conflict order_fwd
     "select 1" "" "markdown" [mixed_findings]).1 =
  filter (fun kr : string * Rule => md_kept kr.1 kr.2 = true)
    (filter_suggest cfg_markdown no_text no_text order_fwd
       (no_conflict (merge_suggests order_fwd [mixed_findings]))).
Proof.
  apply (FormatSuggest_markdown_returned cfg_markdown ext no_text no_text no_conflict
           order_fwd order_fwd_perm "select 1" "" "markdown" [mixed_findings]).
  reflexivity.
Defined.

Lemma merge_suggests_last_wins_witness :
  merge_suggests order_fwd [two_findings; {["ALI.001" := ALI_001_negative]}] !! "ALI.001"
  = Some ALI_001_negative.
Proof.
  apply (merge_suggests_last_wins order_fwd order_fwd_perm).
  exists 1%nat, {["ALI.001" := ALI_001_negative]}.
  split; [reflexivity|]. split; [vm_compute; reflexivity|].
  intros [|[|j]] s' Hj Hs; [lia | lia | done].
Defined.

Lemma FormatSuggest_empty_input_witness :
  (FormatSuggest cfg_star_ALI ext no_text no_text no_conflict order_fwd
     "select 1" "" "text" [∅]).1 = {["OK" := OK_rule]}.
Proof.
  apply (FormatSuggest_empty_input cfg_star_ALI ext no_text no_text no_conflict
           order_fwd order_fwd_perm "select 1" "" "text" [∅]).
  - vm_compute. reflexivity.
  - apply (bool_decide_unpack _). vm_compute. exact I.
  - reflexivity.
Defined.

Lemma formatJSON_arrays_witness :
  exists ke ki kh,
    js_Explain (formatJSON_sug ext order_fwd "select 1" "" mixed_findings) =
      index mixed_findings <$> ke /\
    js_IndexRules (formatJSON_sug ext order_fwd "select 1" "" mixed_findings) =
      index mixed_findings <$> ki /\
    js_HeuristicRules (formatJSON_sug ext order_fwd "select 1" "" mixed_findings) =
      index mixed_findings <$> kh /\
    sorted_codes mixed_findings is_EXP ke /\
    sorted_codes mixed_findings is_IDX ki /\
    sorted_codes mixed_findings
      (fun k => negb (is_EXP k) && negb (is_IDX k) &&
                negb (is_placeholder k (index mixed_findings k))) kh.
Proof.
  exact (formatJSON_arrays ext order_fwd order_fwd_perm "select 1" "" mixed_findings).
Defined.

Lemma FormatSuggest_markdown_score_witness :
  score (FormatSuggest_locals cfg_markdown ext no_text no_text no_conflict order_fwd
           "select 1" "" "markdown" [mixed_findings]) = -20.
Proof.
  pose proof (FormatSuggest_markdown_score cfg_markdown ext no_text no_text no_conflict
                order_fwd order_fwd_perm "select 1" "" "markdown" [mixed_findings]) as H.
  cbv zeta in H. rewrite H.
  - vm_compute. reflexivity.
  - reflexivity.
  - intros k r Hk _.
    assert (Hall : map_Forall (fun _ r => Spec.is_severity (Severity r) = true)
              (filter_suggest cfg_markdown no_text no_text order_fwd
                 (no_conflict (merge_suggests order_fwd [mixed_findings])))).
    { apply (bool_decide_unpack _). vm_compute. exact I. }
    apply (Hall k r Hk).
  - vm_compute. reflexivity.
Defined.

Lemma FormatSuggest_ignore_monotone_witness :
  (FormatSuggest (mkConfig ["*ALI"; "CLA"] "" "" []) ext no_text no_text no_conflict
     order_fwd "select 1" "" "text" [two_findings]).1 ⊆
  (FormatSuggest cfg_star_ALI ext no_text no_text no_conflict
     order_fwd "select 1" "" "text" [two_findings]).1.
Proof.
  apply (FormatSuggest_ignore_monotone cfg_star_ALI (mkConfig ["*ALI"; "CLA"] "" "" [])
           ext no_text no_text no_conflict order_fwd order_fwd_perm).
  intros ir Hir. apply elem_of_cons in Hir as [->|Hir]; [by left | by apply elem_of_nil in Hir].
Defined.

Lemma FormatSuggest_returned_lookup_witness :
  (FormatSuggest cfg_star_ALI ext no_text no_text no_conflict order_fwd
     "select 1" "" "text" [two_findings]).1 !! "CLA.001" = Some CLA_001.
Proof.
  apply (FormatSuggest_returned_lookup cfg_star_ALI ext no_text no_text no_conflict
           order_fwd order_fwd_perm "select 1" "" "text" [two_findings] "CLA.001" CLA_001).
  split; [reflexivity|]. split; [done|]. right. split; [vm_compute; reflexivity | done].
Defined.
